(** * repolens issue scripts: a shallow embedding and its properties

    The scripts under [.github/scripts] parse the issue catalogue
    [ISSUES.md], compare it with the issues of the remote tracker and create
    the missing ones through the [gh] command-line client.

    Text is modelled as [list ascii]: a Python [str] whose code points lie
    in the range 0..255, or a [bytes] value.  On that range [str.isspace],
    [str.lower] and the regular-expression class [\d] are the finite tables
    written out below.  A call that raises is modelled as such: [int] on a
    run of more than 4300 digits, and [subprocess.run], whose outcome is
    given by an oracle that answers each call from the events observed so
    far with a completed process, a [CalledProcessError] or another
    exception. *)

From Stdlib Require Import Ascii String List NArith ZArith Lia Bool.
From Stdlib Require Import Sorted Permutation DecimalString.
From stdpp Require Import base gmap strings list.
Import ListNotations.
Open Scope list_scope.

(** ** Python [str] primitives *)

Module PyStr.

Abbreviation str := (list ascii).

(** A literal: [py "abc"] is the text ['abc']. *)
Definition py (s : string) : str := list_ascii_of_string s.

Definition nl : ascii := "010"%char.
Definition cr : ascii := "013"%char.

Definition code (c : ascii) : N := N_of_ascii c.

(** [str.isspace] on one character of the range 0..255. *)
Definition isspace (c : ascii) : bool :=
  let n := code c in
  ((9 <=? n) && (n <=? 13) || (28 <=? n) && (n <=? 32)
   || (n =? 133) || (n =? 160))%N.

(** The class [\d] on the range 0..255. *)
Definition isdigit (c : ascii) : bool :=
  let n := code c in ((48 <=? n) && (n <=? 57))%N.

(** [str.lower] on one character of the range 0..255. *)
Definition lower_char (c : ascii) : ascii :=
  let n := code c in
  if ((65 <=? n) && (n <=? 90)
      || (192 <=? n) && (n <=? 222) && negb (n =? 215))%N
  then ascii_of_N (n + 32) else c.

Definition lower (s : str) : str := map lower_char s.

Fixpoint lstrip (s : str) : str :=
  match s with
  | c :: s' => if isspace c then lstrip s' else s
  | [] => []
  end.

Definition rstrip (s : str) : str := rev (lstrip (rev s)).

Definition strip (s : str) : str := rstrip (lstrip s).

(** Truth value of a [str]: non-empty. *)
Definition truthy (s : str) : bool :=
  match s with [] => false | _ :: _ => true end.

Definition str_eqb (a b : str) : bool := bool_decide (a = b).

Fixpoint startswith (p s : str) : bool :=
  match p, s with
  | [], _ => true
  | a :: p', b :: s' => bool_decide (a = b) && startswith p' s'
  | _ :: _, [] => false
  end.

(** The rest of [s] after the prefix [p], when [s] starts with [p]. *)
Fixpoint after_prefix (p s : str) : option str :=
  match p, s with
  | [], _ => Some s
  | a :: p', b :: s' => if bool_decide (a = b) then after_prefix p' s' else None
  | _ :: _, [] => None
  end.

(** [s.replace(old, new)] for a non-empty [old]: every occurrence, found
    left to right without overlap.  [skip] counts the characters of an
    occurrence that are still to be passed over. *)
Fixpoint replace_from (old new : str) (skip : nat) (s : str) : str :=
  match s with
  | [] => []
  | c :: s' =>
      match skip with
      | S k => replace_from old new k s'
      | O =>
          if startswith old s
          then new ++ replace_from old new (length old - 1) s'
          else c :: replace_from old new 0 s'
      end
  end.

Definition replace (old new s : str) : str := replace_from old new 0 s.

(** [s.split(sep)] for a one-character separator. *)
Fixpoint split (sep : ascii) (s : str) : list str :=
  match s with
  | [] => [[]]
  | c :: s' =>
      if bool_decide (c = sep) then [] :: split sep s'
      else match split sep s' with
           | t :: ts => (c :: t) :: ts
           | [] => [[c]]
           end
  end.

(** [needle in s]. *)
Fixpoint contains (needle s : str) : bool :=
  startswith needle s ||
  match s with
  | [] => false
  | _ :: s' => contains needle s'
  end.

(** The longest prefix whose characters satisfy [p], and the rest. *)
Fixpoint span (p : ascii -> bool) (s : str) : str * str :=
  match s with
  | c :: s' =>
      if p c then let (a, b) := span p s' in (c :: a, b) else ([], s)
  | [] => ([], [])
  end.

(** The number that a run of decimal digits writes. *)
Definition decimal_value (ds : str) : N :=
  fold_left (fun acc c => (10 * acc + (code c - 48))%N) ds 0%N.

(** [sys.int_info.default_max_str_digits], the limit of CPython 3.11 and
    later on the digits that [int] converts. *)
Definition int_max_str_digits : nat := 4300.

(** [int(ds)] for a run of decimal digits; [None] is the [ValueError]
    raised for more than [int_max_str_digits] digits. *)
Definition int_of_digits (ds : str) : option N :=
  if (length ds <=? int_max_str_digits)%nat then Some (decimal_value ds)
  else None.

(** [str(n)] for an integer. *)
Definition str_of_Z (n : Z) : str :=
  py (NilZero.string_of_int (Z.to_int n)).

(** [sep.join(parts)]. *)
Fixpoint join (sep : str) (parts : list str) : str :=
  match parts with
  | [] => []
  | [p] => p
  | p :: ps => p ++ sep ++ join sep ps
  end.

(** Text-mode reading: [\r\n] and a lone [\r] become [\n]. *)
Fixpoint universal_newlines (s : str) : str :=
  match s with
  | [] => []
  | c :: s' =>
      if bool_decide (c = cr) then
        match s' with
        | d :: s'' =>
            if bool_decide (d = nl) then nl :: universal_newlines s''
            else nl :: universal_newlines s'
        | [] => [nl]
        end
      else c :: universal_newlines s'
  end.

(** Lines of a text, each with its terminating [\n] when it has one. *)
Fixpoint keepends (s : str) : list str :=
  match s with
  | [] => []
  | c :: s' =>
      if bool_decide (c = nl) then [c] :: keepends s'
      else match keepends s' with
           | l :: ls => (c :: l) :: ls
           | [] => [[c]]
           end
  end.

(** [f.readlines()] on a file opened in text mode with content [s]. *)
Definition readlines (s : str) : list str := keepends (universal_newlines s).

End PyStr.

Import PyStr.

(** ** The document parser: [parse_issues_file] of [check_and_create_issues.py]
    (the copy in [create_issues_robust.py] is the same text) *)

Module Parser.

(** The dict built for one issue. *)
Record Issue := mkIssue {
  number : N;
  title : str;
  labels : list str;
  description : str;
  objectives : str;
  acceptance : str
}.

#[global] Instance Issue_eq_dec : EqDecision Issue.
Proof. solve_decision. Defined.

(** The three values of [current_section] other than [None]. *)
Inductive section := Description | Objectives | Acceptance.

(** [re.match(r'^### Issue #(\d+): (.+)$', s)]: groups 1 and 2 of the match.
    [\d+] takes the whole run of digits (the next character has to be [:]),
    [.+] takes every character up to the first newline, and [$] holds at the
    end of the text or before a newline that ends it. *)
Definition match_header (s : str) : option (str * str) :=
  match after_prefix (py "### Issue #") s with
  | None => None
  | Some r1 =>
      let (ds, r2) := span isdigit r1 in
      if truthy ds then
        match after_prefix (py ": ") r2 with
        | None => None
        | Some r3 =>
            let (g2, r4) := span (fun c => negb (bool_decide (c = nl))) r3 in
            if truthy g2 then
              match r4 with
              | [] => Some (ds, g2)
              | [_] => Some (ds, g2)
              | _ => None
              end
            else None
        end
      else None
  end.

Definition labels_marker : str := py "**Labels:**".

(** Lines 53-58: the value assigned to [current_issue['labels']]. *)
Definition parse_labels (line : str) : list str :=
  let labels_str := strip (replace labels_marker [] line) in
  map (fun l => replace (py "'") [] (replace (py "`") [] (strip l)))
      (List.filter (fun l => truthy (strip l)) (split ","%char labels_str)).

(** The variables of the loop. *)
Record pstate := mkState {
  issues : list Issue;
  current_issue : option Issue;
  current_section : option section;
  in_issue : bool
}.

Definition init : pstate :=
  {| issues := []; current_issue := None; current_section := None;
     in_issue := false |}.

Definition new_issue (n : N) (t : str) : Issue :=
  {| number := n; title := t; labels := []; description := [];
     objectives := []; acceptance := [] |}.

Definition set_labels (ls : list str) (c : Issue) : Issue :=
  {| number := number c; title := title c; labels := ls;
     description := description c; objectives := objectives c;
     acceptance := acceptance c |}.

(** [current_issue[sec] += line]. *)
Definition append_to (sec : section) (line : str) (c : Issue) : Issue :=
  match sec with
  | Description =>
      {| number := number c; title := title c; labels := labels c;
         description := description c ++ line; objectives := objectives c;
         acceptance := acceptance c |}
  | Objectives =>
      {| number := number c; title := title c; labels := labels c;
         description := description c; objectives := objectives c ++ line;
         acceptance := acceptance c |}
  | Acceptance =>
      {| number := number c; title := title c; labels := labels c;
         description := description c; objectives := objectives c;
         acceptance := acceptance c ++ line |}
  end.

Definition with_current (f : Issue -> Issue) (st : pstate) : pstate :=
  {| issues := issues st; current_issue := option_map f (current_issue st);
     current_section := current_section st; in_issue := in_issue st |}.

Definition with_section (s : option section) (st : pstate) : pstate :=
  {| issues := issues st; current_issue := current_issue st;
     current_section := s; in_issue := in_issue st |}.

(** [issues] once [current_issue] has been appended when there is one. *)
Definition flush (st : pstate) : list Issue :=
  match current_issue st with
  | Some c => issues st ++ [c]
  | None => issues st
  end.

(** One turn of the [while] loop (lines 24-92) on [line = lines[i]];
    [None] is the [ValueError] of [int] on line 35.  Whenever [in_issue]
    holds, [current_issue] is a dict (lemma [after_consistent]), so the
    subscripts on it are defined. *)
Definition step (st : pstate) (line : str) : option pstate :=
  match match_header (strip line) with
  | Some (g1, g2) =>
      match int_of_digits g1 with
      | Some n =>
          Some {| issues := flush st;
                  current_issue := Some (new_issue n (strip g2));
                  current_section := None;
                  in_issue := true |}
      | None => None
      end
  | None =>
      Some
        (if negb (in_issue st) then st
         else if startswith labels_marker (strip line)
         then with_current (set_labels (parse_labels line)) st
         else if str_eqb (strip line) (py "**Description:**")
         then with_section (Some Description) st
         else if str_eqb (strip line) (py "**Objectifs:**")
         then with_section (Some Objectives) st
         else if str_eqb (strip line) (py "**Acceptance Criteria:**")
         then with_section (Some Acceptance) st
         else if str_eqb (strip line) (py "---")
         then {| issues := issues st; current_issue := current_issue st;
                 current_section := None; in_issue := false |}
         else match current_section st with
              | Some sec =>
                  if truthy (strip line)
                  then with_current (append_to sec line) st
                  else st
              | None => st
              end)
  end.

(** The whole loop; it stops at the first turn that raises. *)
Fixpoint loop (st : pstate) (lines : list str) : option pstate :=
  match lines with
  | [] => Some st
  | line :: rest =>
      match step st line with
      | Some st' => loop st' rest
      | None => None
      end
  end.

(** Lines 99-102: the three texts are stripped. *)
Definition clean (c : Issue) : Issue :=
  {| number := number c; title := title c; labels := labels c;
     description := strip (description c);
     objectives := strip (objectives c);
     acceptance := strip (acceptance c) |}.

(** [sorted(l, key=key)]: the stable ascending sort. *)
Fixpoint insert_by {A} (key : A -> N) (x : A) (l : list A) : list A :=
  match l with
  | [] => [x]
  | y :: l' =>
      if (key x <=? key y)%N then x :: y :: l' else y :: insert_by key x l'
  end.

Fixpoint sorted {A} (key : A -> N) (l : list A) : list A :=
  match l with
  | [] => []
  | x :: l' => insert_by key x (sorted key l')
  end.

(** The records in document order, before the final sort. *)
Definition scan (lines : list str) : option (list Issue) :=
  option_map (fun st => map clean (flush st)) (loop init lines).

Definition parse_lines (lines : list str) : option (list Issue) :=
  option_map (sorted number) (scan lines).

(** [parse_issues_file] on a file whose decoded content is [content]:
    the list returned, or [None] when the call raises. *)
Definition parse_issues_file (content : str) : option (list Issue) :=
  parse_lines (readlines content).

End Parser.

Import Parser.

(** ** The collaborator: the [gh] client behind [subprocess.run] *)

Module Gh.

(** The exceptions other than [CalledProcessError] that a call of
    [subprocess.run] raises: [ValueError] for a NUL character in an
    argument, [OSError] when [gh] cannot be started, [UnicodeDecodeError]
    when [text=True] meets an output that cannot be decoded. *)
Inductive exn := ValueError | OSError | UnicodeDecodeError.

(** What [subprocess.run(cmd, capture_output=True, check=True)] does: it
    returns a completed process with its standard output, raises
    [CalledProcessError] with both streams when the exit status is not 0, or
    raises another exception.  The streams are text under [text=True] and
    bytes otherwise, one character for each byte. *)
Inductive proc_result :=
  | Completed (stdout : str)
  | CalledProcessError (stdout stderr : str)
  | Raised (e : exn).

(** What a run does to the outside: the commands it hands to
    [subprocess.run], each with its outcome, and its pauses ([time.sleep],
    in milliseconds). *)
Inductive event :=
  | EvRun (cmd : list str) (r : proc_result)
  | EvSleep (ms : N).

(** A collaborator behaviour: the outcome of the next call of
    [subprocess.run], from the events so far and the command.  It stands
    for [gh] and for what Python does around it. *)
Definition oracle := list event -> list str -> proc_result.

(** What a computation gives: a value, or an exception that nothing has
    caught. *)
Inductive res (A : Type) :=
  | Return (a : A)
  | Raise (e : exn).

Arguments Return {A} a.
Arguments Raise {A} e.

(** Computations that extend the list of events and may raise. *)
Definition M (A : Type) : Type := list event -> res A * list event.

Definition ret {A} (a : A) : M A := fun t => (Return a, t).

Definition raise {A} (e : exn) : M A := fun t => (Raise e, t).

Definition bind {A B} (m : M A) (k : A -> M B) : M B :=
  fun t =>
    match m t with
    | (Return a, t') => k a t'
    | (Raise e, t') => (Raise e, t')
    end.

(** The call itself: its outcome is handed to the [try] statement that
    surrounds it, which is the [match] that follows each call below. *)
Definition subprocess_run (gh : oracle) (cmd : list str) : M proc_result :=
  fun t => let r := gh t cmd in (Return r, t ++ [EvRun cmd r]).

Definition sleep (ms : N) : M unit :=
  fun t => (Return tt, t ++ [EvSleep ms]).

(** [lo <= b <= hi] for a byte [b]. *)
Definition within (lo hi : N) (b : ascii) : bool :=
  ((lo <=? code b) && (code b <=? hi))%N.

(** [data.decode()] succeeds: [data] is well-formed UTF-8. *)
Fixpoint utf8_valid (data : str) : bool :=
  match data with
  | [] => true
  | b0 :: d1 =>
      if within 0 127 b0 then utf8_valid d1
      else if within 194 223 b0 then
        match d1 with
        | b1 :: d2 => within 128 191 b1 && utf8_valid d2
        | _ => false
        end
      else if within 224 239 b0 then
        match d1 with
        | b1 :: b2 :: d3 =>
            within (if within 224 224 b0 then 160 else 128)
                   (if within 237 237 b0 then 159 else 191) b1
            && within 128 191 b2 && utf8_valid d3
        | _ => false
        end
      else if within 240 244 b0 then
        match d1 with
        | b1 :: b2 :: b3 :: d4 =>
            within (if within 240 240 b0 then 144 else 128)
                   (if within 244 244 b0 then 143 else 191) b1
            && within 128 191 b2 && within 128 191 b3 && utf8_valid d4
        | _ => false
        end
      else false
  end.

(** The commands launched, in order. *)
Fixpoint commands (t : list event) : list (list str) :=
  match t with
  | [] => []
  | EvRun cmd _ :: t' => cmd :: commands t'
  | EvSleep _ :: t' => commands t'
  end.

(** The number of pauses. *)
Fixpoint sleeps (t : list event) : nat :=
  match t with
  | [] => 0
  | EvRun _ _ :: t' => sleeps t'
  | EvSleep _ :: t' => S (sleeps t')
  end.

(** [re.search(r'https://github\.com/[^/]+/[^/]+/issues/\d+', s)]: the
    match that starts at the head of [s] ... *)
Definition match_url (s : str) : option str :=
  let notslash := fun c : ascii => negb (bool_decide (c = "/"%char)) in
  match after_prefix (py "https://github.com/") s with
  | None => None
  | Some r1 =>
      let (owner, r2) := span notslash r1 in
      if truthy owner then
        match after_prefix (py "/") r2 with
        | None => None
        | Some r3 =>
            let (name, r4) := span notslash r3 in
            if truthy name then
              match after_prefix (py "/issues/") r4 with
              | None => None
              | Some r5 =>
                  let (ds, _) := span isdigit r5 in
                  if truthy ds
                  then Some (py "https://github.com/" ++ owner ++ py "/"
                             ++ name ++ py "/issues/" ++ ds)
                  else None
              end
            else None
        end
      else None
  end.

(** ... and the leftmost match anywhere in [s]. *)
Fixpoint search_url (s : str) : option str :=
  match match_url s with
  | Some u => Some u
  | None =>
      match s with
      | [] => None
      | _ :: s' => search_url s'
      end
  end.

(** The three pieces of the issue body and the [--label] arguments, as
    both creating scripts build them. *)
Definition body_of (issue : Issue) : str :=
  let part (heading text : str) :=
    if truthy text then [heading ++ [nl; nl] ++ text] else [] in
  join [nl; nl]
    (part (py "## Description") (description issue)
     ++ part (py "## Objectifs") (objectives issue)
     ++ part (py "## Acceptance Criteria") (acceptance issue)).

Definition cmd_no_labels (repo : str) (issue : Issue) : list str :=
  [py "gh"; py "issue"; py "create"; py "--repo"; repo;
   py "--title"; title issue; py "--body"; body_of issue].

Definition label_args (ls : list str) : list str :=
  flat_map (fun l => if truthy l then [py "--label"; l] else []) ls.

Definition create_cmd (repo : str) (issue : Issue) : list str :=
  cmd_no_labels repo issue ++ label_args (labels issue).

Definition repo_view_cmd : list str :=
  [py "gh"; py "repo"; py "view"; py "--json"; py "nameWithOwner";
   py "-q"; py ".nameWithOwner"].

(** Truth value of what [create_issue] returns. *)
Definition created_ok (url : option str) : bool :=
  match url with Some u => truthy u | None => false end.

(** The counters of a creating loop. *)
Record report := mkReport {
  created : nat;
  failed : nat;
  urls : list str
}.

Definition tally (url : option str) (acc : report) : report :=
  match url with
  | Some u =>
      if truthy u
      then {| created := S (created acc); failed := failed acc;
              urls := urls acc ++ [u] |}
      else {| created := created acc; failed := S (failed acc);
              urls := urls acc |}
  | None =>
      {| created := created acc; failed := S (failed acc); urls := urls acc |}
  end.

End Gh.

Import Gh.

Declare Scope gh_scope.
Delimit Scope gh_scope with gh.
Notation "'do' x <- m ;; k" := (bind m (fun x => k))
  (at level 10, x name, m at level 99, k at level 200) : gh_scope.
Notation "'exec' m ;; k" := (bind m (fun _ => k))
  (at level 10, m at level 99, k at level 200) : gh_scope.
Open Scope gh_scope.

(** ** [check_and_create_issues.py] *)

Module CheckAndCreate.
Section Script.

Variable gh : oracle.

(** [json.loads(out)] read as the [(title, number)] pairs of its elements,
    in order; [None] when [json.loads] or one of the two subscripts
    raises. *)
Variable json_issues : str -> option (list (str * N)).

Definition list_cmd (repo : str) : list str :=
  [py "gh"; py "issue"; py "list"; py "--repo"; repo; py "--limit";
   py "200"; py "--json"; py "number,title"].

(** [{issue['title']: issue['number'] for issue in issues}]: a later
    entry replaces an earlier one with the same title. *)
Definition dict_of (entries : list (str * N)) : gmap (list ascii) N :=
  fold_left (fun m e => <[fst e := snd e]> m) entries ∅.

(** Lines 106-121: [except Exception] catches whatever the call or the
    reading of its output raises. *)
Definition get_existing_issues (repo : str) : M (gmap (list ascii) N) :=
  do r <- subprocess_run gh (list_cmd repo) ;;
  match r with
  | Completed out =>
      match json_issues out with
      | Some entries => ret (dict_of entries)
      | None => ret ∅
      end
  | CalledProcessError _ _ => ret ∅
  | Raised _ => ret ∅
  end.

(** Lines 123-167: only [CalledProcessError] is caught. *)
Definition create_issue (repo : str) (issue : Issue) : M (option str) :=
  do r <- subprocess_run gh (create_cmd repo issue) ;;
  match r with
  | Completed out =>
      let output := strip out in
      match search_url output with
      | Some u => ret (Some u)
      | None => ret (Some output)
      end
  | CalledProcessError _ _ => ret None
  | Raised e => raise e
  end.

(** Lines 200-207: the records whose title is a key of the index, each
    with the remote number that is printed for it, and [missing_issues]. *)
Definition reconcile (issues : list Issue) (existing : gmap (list ascii) N)
  : list (Issue * N) * list Issue :=
  fold_left
    (fun acc issue =>
       match existing !! title issue with
       | None => (fst acc, snd acc ++ [issue])
       | Some n => (fst acc ++ [(issue, n)], snd acc)
       end)
    issues ([], []).

(** Lines 228-242, with [missing_issues[-1]] as [final]. *)
Fixpoint create_loop (repo : str) (final : option Issue)
    (todo : list Issue) (acc : report) : M report :=
  match todo with
  | [] => ret acc
  | issue :: rest =>
      do url <- create_issue repo issue ;;
      exec (if bool_decide (Some issue ≠ final) then sleep 1500 else ret tt) ;;
      create_loop repo final rest (tally url acc)
  end.

(** Lines 224-243. *)
Definition create_missing (repo : str) (missing : list Issue) : M report :=
  create_loop repo (last missing) missing
    {| created := 0; failed := 0; urls := [] |}.

(** Lines 171-184: the bare [except] catches everything; [None] is
    [sys.exit(1)]. *)
Definition detect_repo (argv : list str) : M (option str) :=
  do r <- subprocess_run gh repo_view_cmd ;;
  match r with
  | Completed out => ret (Some (strip out))
  | CalledProcessError _ _ | Raised _ =>
      match argv with
      | _ :: a :: _ => ret (if truthy a then Some a else None)
      | _ => ret None
      end
  end.

(** [main]: [argv] is [sys.argv], [issues_md] the content of [ISSUES.md]
    when the file exists, [answer] what [input] returns.  The result is the
    exit status of the process, unless an exception ends it. *)
Definition main (argv : list str) (issues_md : option str) (answer : str)
  : M N :=
  do repo <- detect_repo argv ;;
  match repo, issues_md with
  | None, _ => ret 1%N
  | Some _, None => ret 1%N
  | Some repo, Some content =>
      match parse_issues_file content with
      | None => raise ValueError
      | Some issues =>
          do existing <- get_existing_issues repo ;;
          let missing := snd (reconcile issues existing) in
          match missing with
          | [] => ret 0%N
          | _ :: _ =>
              if negb (str_eqb (lower answer) (py "y")) then ret 0%N
              else
                do rep <- create_missing repo missing ;;
                ret (if Nat.eqb (failed rep) 0 then 0%N else 1%N)
          end
      end
  end.

End Script.
End CheckAndCreate.

(** ** [create_issues_robust.py] *)

Module Robust.
Section Script.

Variable gh : oracle.

Definition edit_cmd (url label : str) : list str :=
  [py "gh"; py "issue"; py "edit"; url; py "--add-label"; label].

(** Lines 170-179: one [gh issue edit] per non-empty label; the bare
    [except] passes over whatever a call raises. *)
Fixpoint add_labels (url : str) (ls : list str) : M unit :=
  match ls with
  | [] => ret tt
  | label :: rest =>
      exec (if truthy label
            then (do _ <- subprocess_run gh (edit_cmd url label) ;; ret tt)
            else ret tt) ;;
      add_labels url rest
  end.

Definition label_not_found (stderr : str) : bool :=
  contains (py "label") (lower stderr)
  && contains (py "not found") (lower stderr).

(** Lines 106-189, called without [dry_run]: both [try] statements
    catch [CalledProcessError] only. *)
Definition create_issue (repo : str) (issue : Issue) : M (option str) :=
  do r <- subprocess_run gh (create_cmd repo issue) ;;
  match r with
  | Completed out =>
      let output := strip out in
      match search_url output with
      | Some u => ret (Some u)
      | None => ret (Some output)
      end
  | CalledProcessError _ stderr =>
      if label_not_found stderr then
        do r2 <- subprocess_run gh (cmd_no_labels repo issue) ;;
        match r2 with
        | Completed out =>
            let output := strip out in
            match search_url output with
            | Some u => exec add_labels u (labels issue) ;; ret (Some u)
            | None => ret (Some output)
            end
        | CalledProcessError _ _ => ret None
        | Raised e => raise e
        end
      else ret None
  | Raised e => raise e
  end.

(** Lines 248-262, with [len(issues)] as [total]. *)
Fixpoint create_loop (repo : str) (total : nat)
    (todo : list Issue) (acc : report) : M report :=
  match todo with
  | [] => ret acc
  | issue :: rest =>
      do url <- create_issue repo issue ;;
      exec (if (number issue <? N.of_nat total)%N then sleep 1500 else ret tt) ;;
      create_loop repo total rest (tally url acc)
  end.

(** Lines 244-262. *)
Definition create_all (repo : str) (issues : list Issue) : M report :=
  create_loop repo (length issues) issues
    {| created := 0; failed := 0; urls := [] |}.

Definition is_flag_yes (a : str) : bool :=
  str_eqb a (py "--yes") || str_eqb a (py "-y").

(** Lines 201-214: [None] is [sys.exit(1)]. *)
Definition detect_repo (argv : list str) : M (option str) :=
  do r <- subprocess_run gh repo_view_cmd ;;
  match r with
  | Completed out => ret (Some (strip out))
  | CalledProcessError _ _ | Raised _ =>
      match List.find (fun a => negb (is_flag_yes a)
                                && negb (startswith (py "-") a))
                      (tl argv) with
      | Some a => ret (if truthy a then Some a else None)
      | None => ret None
      end
  end.

(** [main], with the same inputs as in [CheckAndCreate]. *)
Definition main (argv : list str) (issues_md : option str) (answer : str)
  : M N :=
  let auto_yes := existsb is_flag_yes argv in
  do repo <- detect_repo argv ;;
  match repo, issues_md with
  | None, _ => ret 1%N
  | Some _, None => ret 1%N
  | Some repo, Some content =>
      match parse_issues_file content with
      | None => raise ValueError
      | Some issues =>
          if negb auto_yes && negb (str_eqb (lower answer) (py "y"))
          then ret 0%N
          else
            do rep <- create_all repo issues ;;
            ret (if Nat.eqb (failed rep) 0 then 0%N else 1%N)
      end
  end.

End Script.
End Robust.

(** ** [close_duplicates.py] *)

Module CloseDuplicates.
Section Script.

Variable gh : oracle.

(** The comment passed to every [gh issue close]. *)
Definition comment : str :=
  py "Issue ferm" ++ ["233"%char]
  ++ py " car doublon d'un issue existant (#1-55).".

Definition close_cmd (repo : str) (issue_num : Z) : list str :=
  [py "gh"; py "issue"; py "close"; str_of_Z issue_num; py "--repo"; repo;
   py "--comment"; comment].

(** [range(a, b)]. *)
Definition range (a b : Z) : list Z :=
  map (fun i => (a + Z.of_nat i)%Z) (seq 0 (Z.to_nat (b - a))).

(** Lines 16-29.  The streams are bytes here (no [text=True]): the
    handler of [CalledProcessError] decodes [e.stderr] for its message before
    it counts the failure, and nothing catches what the decoding or the call
    raises. *)
Fixpoint close_loop (repo : str) (todo : list Z) (closed failed : nat)
  : M (nat * nat) :=
  match todo with
  | [] => ret (closed, failed)
  | issue_num :: rest =>
      do r <- subprocess_run gh (close_cmd repo issue_num) ;;
      match r with
      | Completed _ => close_loop repo rest (S closed) failed
      | CalledProcessError _ stderr =>
          if utf8_valid stderr then close_loop repo rest closed (S failed)
          else raise UnicodeDecodeError
      | Raised e => raise e
      end
  end.

(** Lines 9-35. *)
Definition close_duplicate_issues (repo : str) (start_num end_num : Z)
  : M (nat * nat) :=
  close_loop repo (range start_num (end_num + 1)) 0 0.

(** Lines 39-51: the bare [except] catches everything; [None] is
    [sys.exit(1)]. *)
Definition detect_repo (argv : list str) : M (option str) :=
  do r <- subprocess_run gh repo_view_cmd ;;
  match r with
  | Completed out => ret (Some (strip out))
  | CalledProcessError _ _ | Raised _ =>
      match argv with
      | _ :: a :: _ => ret (if truthy a then Some a else None)
      | _ => ret None
      end
  end.

(** [main]: closes [#56] to [#110] once the user has agreed. *)
Definition main (argv : list str) (answer : str) : M N :=
  do repo <- detect_repo argv ;;
  match repo with
  | None => ret 1%N
  | Some repo =>
      if negb (str_eqb (lower answer) (py "y")) then ret 0%N
      else
        do res <- close_duplicate_issues repo 56 110 ;;
        ret (if Nat.eqb (snd res) 0 then 0%N else 1%N)
  end.

End Script.
End CloseDuplicates.

(** ** Notions used to state the properties *)

Module Grammar.

(** The number and the title a line declares when it is an issue header. *)
Definition header_of (line : str) : option (N * str) :=
  match match_header (strip line) with
  | Some (g1, g2) => Some (decimal_value g1, strip g2)
  | None => None
  end.

(** The line is not a header whose number has too many digits for
    [int]. *)
Definition int_ok (line : str) : bool :=
  match match_header (strip line) with
  | Some (g1, _) => (length g1 <=? int_max_str_digits)%nat
  | None => true
  end.

(** The turn of the loop on a line that [int] accepts, the loop and its
    results on lines that [int] accepts: what [step], [loop], [scan] and
    [parse_lines] return then (lemmas [step_pure], [loop_pure],
    [scan_pure] and [parse_lines_pure]). *)
Definition pure_step (st : pstate) (line : str) : pstate :=
  match match_header (strip line) with
  | Some (g1, g2) =>
      {| issues := flush st;
         current_issue := Some (new_issue (decimal_value g1) (strip g2));
         current_section := None;
         in_issue := true |}
  | None =>
      if negb (in_issue st) then st
      else if startswith labels_marker (strip line)
      then with_current (set_labels (parse_labels line)) st
      else if str_eqb (strip line) (py "**Description:**")
      then with_section (Some Description) st
      else if str_eqb (strip line) (py "**Objectifs:**")
      then with_section (Some Objectives) st
      else if str_eqb (strip line) (py "**Acceptance Criteria:**")
      then with_section (Some Acceptance) st
      else if str_eqb (strip line) (py "---")
      then {| issues := issues st; current_issue := current_issue st;
              current_section := None; in_issue := false |}
      else match current_section st with
           | Some sec =>
               if truthy (strip line) then with_current (append_to sec line) st
               else st
           | None => st
           end
  end.

Definition pure_loop (st : pstate) (lines : list str) : pstate :=
  fold_left pure_step lines st.

Definition pure_scan (lines : list str) : list Issue :=
  map clean (flush (pure_loop init lines)).

Definition pure_parse (lines : list str) : list Issue :=
  sorted number (pure_scan lines).

Definition is_header (line : str) : bool :=
  match header_of line with Some _ => true | None => false end.

Definition is_labels_line (line : str) : bool :=
  startswith labels_marker (strip line).

(** The section a bare marker line selects. *)
Definition marker_of (line : str) : option section :=
  if str_eqb (strip line) (py "**Description:**") then Some Description
  else if str_eqb (strip line) (py "**Objectifs:**") then Some Objectives
  else if str_eqb (strip line) (py "**Acceptance Criteria:**")
  then Some Acceptance
  else None.

Definition is_terminator (line : str) : bool :=
  str_eqb (strip line) (py "---").

Definition is_blank (line : str) : bool := negb (truthy (strip line)).

(** A line of a block that is none of the marked lines: section content. *)
Definition is_content (line : str) : bool :=
  negb (is_header line) && negb (is_labels_line line)
  && match marker_of line with Some _ => false | None => true end
  && negb (is_terminator line).

(** How the grammar of the document reads one line inside an open block
    that is neither a header nor the terminator. *)
Definition fill (acc : Issue * option section) (line : str)
  : Issue * option section :=
  let (c, sec) := acc in
  if is_labels_line line then (set_labels (parse_labels line) c, sec)
  else match marker_of line with
       | Some s => (c, Some s)
       | None =>
           match sec with
           | Some s => if is_blank line then (c, sec)
                       else (append_to s line c, sec)
           | None => (c, sec)
           end
       end.

(** The record of the block opened by a header [#n: t] and made of the
    lines [body], as the grammar reads it. *)
Definition block_record (n : N) (t : str) (body : list str) : Issue :=
  let raw := fst (fold_left fill body (new_issue n t, None)) in
  {| number := n; title := t; labels := labels raw;
     description := strip (description raw);
     objectives := strip (objectives raw);
     acceptance := strip (acceptance raw) |}.

(** The decoration removed from a label. *)
Definition is_deco (c : ascii) : bool :=
  bool_decide (c = "`"%char) || bool_decide (c = "'"%char).

Definition undecorate (s : str) : str :=
  List.filter (fun c => negb (is_deco c)) s.

(** The tokens of a Labels line: the pieces between commas of the line
    without its marker. *)
Definition label_tokens (line : str) : list str :=
  split ","%char (strip (replace labels_marker [] line)).

(** The state of the parser after the lines [ls] of a document, when no
    turn has raised. *)
Definition after (ls : list str) : option pstate := loop init ls.

Definition pure_after (ls : list str) : pstate := pure_loop init ls.

(** Number and title of a record. *)
Definition ident (c : Issue) : N * str := (number c, title c).

(** The same state with the records [p] emitted beforehand. *)
Definition prepend (p : list Issue) (st : pstate) : pstate :=
  {| issues := p ++ issues st; current_issue := current_issue st;
     current_section := current_section st; in_issue := in_issue st |}.

(** The block opened by the header [#n: t], before its first line. *)
Definition opened (n : N) (t : str) : pstate :=
  {| issues := []; current_issue := Some (new_issue n t);
     current_section := None; in_issue := true |}.

(** While a block is open there is a current record, and a section is
    selected only while a block is open. *)
Definition consistent (st : pstate) : Prop :=
  (is_Some (current_section st) -> in_issue st = true) /\
  (in_issue st = true -> is_Some (current_issue st)).

(** Where the labels of a record come from: no Labels line, or one of the
    Labels lines among [doc]. *)
Definition labels_from (doc : list str) (c : Issue) : Prop :=
  labels c = [] \/
  exists line, In line doc /\ is_labels_line line = true /\
               labels c = parse_labels line.

(** The outcomes of the commands launched, in order. *)
Fixpoint results (t : list event) : list proc_result :=
  match t with
  | [] => []
  | EvRun _ r :: t' => r :: results t'
  | EvSleep _ :: t' => results t'
  end.

(** What [create_issue] of [check_and_create_issues.py] returns for an
    outcome of its command. *)
Definition returned (r : proc_result) : option str :=
  match r with
  | Completed out =>
      Some (match search_url (strip out) with
            | Some u => u
            | None => strip out
            end)
  | CalledProcessError _ _ => None
  | Raised _ => None
  end.

(** The call raised something else than [CalledProcessError]. *)
Definition is_raised (r : proc_result) : bool :=
  match r with Raised _ => true | _ => false end.


(** An argument of the command holds a NUL character. *)
Definition has_nul (cmd : list str) : bool :=
  existsb (existsb (fun c => bool_decide (c = "000"%char))) cmd.

(** The collaborator as Python runs it: a command with a NUL character
    in an argument is refused with [ValueError] before [gh] is started. *)
Definition null_checked (gh : oracle) : oracle :=
  fun t cmd => if has_nul cmd then Raised ValueError else gh t cmd.

(** The listing of the remote issues fails: the command exits with an
    error, the call raises, or its output cannot be read as a list of
    issues. *)
Definition listing_fails (json_issues : str -> option (list (str * N)))
    (r : proc_result) : Prop :=
  match r with
  | Completed out => json_issues out = None
  | CalledProcessError _ _ => True
  | Raised _ => True
  end.


End Grammar.

Import Grammar.

(** ** Concrete documents and collaborators *)

Module Scenario.

(** A catalogue of two blocks in the layout of [ISSUES.md]. *)
Definition two_blocks : str := py "# Issues

### Issue #1: Add retries

**Labels:** `enhancement`, `priority:high`

**Description:**

Retry failed requests.

**Objectifs:**

- Retry three times

**Acceptance Criteria:**

- [ ] Retries are logged

---

### Issue #2: Add metrics

**Labels:** `enhancement`

**Description:**

Expose counters.

**Objectifs:**

- Count requests

**Acceptance Criteria:**

- [ ] Counters are exported

---
".

Definition retries : Issue :=
  {| number := 1; title := py "Add retries";
     labels := [py "enhancement"; py "priority:high"];
     description := py "Retry failed requests.";
     objectives := py "- Retry three times";
     acceptance := py "- [ ] Retries are logged" |}.

Definition metrics : Issue :=
  {| number := 2; title := py "Add metrics";
     labels := [py "enhancement"];
     description := py "Expose counters.";
     objectives := py "- Count requests";
     acceptance := py "- [ ] Counters are exported" |}.

Definition tracing : Issue :=
  {| number := 3; title := py "Add tracing"; labels := [];
     description := py "Trace calls."; objectives := []; acceptance := [] |}.

Definition repo : str := py "delfour-co/repolens".

(** The number of commands launched so far, as the issue number that the
    next creation gets. *)
Definition issue_url (t : list event) : str :=
  py "https://github.com/delfour-co/repolens/issues/"
  ++ str_of_Z (Z.of_nat (S (length (commands t)))) ++ [nl].

(** Every command succeeds; a creation prints the URL of the issue. *)
Definition gh_ok : oracle :=
  null_checked (fun t _ => Completed (issue_url t)).

(** The second command launched fails; the others succeed. *)
Definition gh_second_fails : oracle :=
  null_checked
    (fun t _ =>
       if Nat.eqb (length (commands t)) 1
       then CalledProcessError [] (py "HTTP 502: Bad Gateway")
       else Completed (issue_url t)).

(** A creation with labels is refused for an unknown label, the labels
    cannot be attached afterwards either, and everything else succeeds. *)
Definition gh_unknown_label : oracle :=
  null_checked
    (fun t cmd =>
       if existsb (fun a => str_eqb a (py "--label")
                            || str_eqb a (py "--add-label")) cmd
       then CalledProcessError []
              (py "could not add label: 'enhancement' Not Found")
       else Completed (issue_url t)).

(** The same refusal of labels, but a creation that succeeds prints
    a message without the URL of the issue. *)
Definition gh_unknown_label_no_url : oracle :=
  null_checked
    (fun t cmd =>
       if existsb (fun a => str_eqb a (py "--label")) cmd
       then CalledProcessError []
              (py "could not add label: 'enhancement' not found")
       else Completed (py "Issue created.
")).

(** Every command fails. *)
Definition gh_down : oracle :=
  null_checked
    (fun _ _ =>
       CalledProcessError [] (py "error connecting to api.github.com")).



(** A catalogue whose first title holds a NUL character. *)
Definition nul_title_blocks : str :=
  py "### Issue #1: A" ++ ["000"%char] ++ py "B
**Description:**
First.
---
### Issue #2: Add metrics
**Description:**
Second.
---
".

Definition nul_title : Issue :=
  {| number := 1; title := py "A" ++ ["000"%char] ++ py "B"; labels := [];
     description := py "First."; objectives := []; acceptance := [] |}.

Definition second : Issue :=
  {| number := 2; title := py "Add metrics"; labels := [];
     description := py "Second."; objectives := []; acceptance := [] |}.

(** A catalogue whose only block is not terminated and whose number has
    4301 digits. *)
Definition long_number_block : str :=
  py "### Issue #" ++ repeat "1"%char 4301 ++ py ": Far too many
**Description:**
never closed".

(** The repository is found and creations succeed, but the listing of
    the remote issues fails. *)
Definition gh_listing_down : oracle :=
  null_checked
    (fun t cmd =>
       if bool_decide (cmd = repo_view_cmd) then Completed (repo ++ [nl])
       else if existsb (fun a => str_eqb a (py "list")) cmd
       then CalledProcessError [] (py "HTTP 503: Service Unavailable")
       else Completed (issue_url t)).

(** No listing can be read. *)
Definition no_json : str -> option (list (str * N)) := fun _ => None.

End Scenario.

(** * Properties *)

(** ** Text, headers and the turns of the loop on accepted lines *)

(** ** Text *)
Lemma after_prefix_Some p s r : after_prefix p s = Some r <-> s = p ++ r.
Proof.
  revert s; induction p as [|a p IH]; intros [|b s]; simpl.
  - split; congruence.
  - split; congruence.
  - split; [discriminate | intros H; discriminate H].
  - case_bool_decide as E.
    + subst b. rewrite IH. split; congruence.
    + split; [discriminate | intros H; inversion H; congruence].
Qed.

Lemma span_spec p s a b :
  span p s = (a, b) ->
  s = a ++ b /\ forallb p a = true /\
  match b with [] => True | c :: _ => p c = false end.
Proof.
  revert a b; induction s as [|c s IH]; simpl; intros a b H.
  - inversion H; subst. auto.
  - destruct (p c) eqn:Ec.
    + destruct (span p s) as [a' b'] eqn:Es. inversion H; subst.
      destruct (IH _ _ eq_refl) as (-> & Ha & Hb). simpl. rewrite Ec. auto.
    + inversion H; subst. simpl. auto.
Qed.

Lemma lstrip_head s :
  match lstrip s with [] => True | c :: _ => isspace c = false end.
Proof.
  induction s as [|c s IH]; simpl; [exact I|].
  destruct (isspace c) eqn:E; [exact IH | exact E].
Qed.

Lemma lstrip_nil s : lstrip s = [] -> forallb isspace s = true.
Proof.
  induction s as [|c s IH]; simpl; [reflexivity|].
  destruct (isspace c); [exact IH | discriminate].
Qed.

Lemma forallb_rev {A} (p : A -> bool) l :
  forallb p (rev l) = forallb p l.
Proof.
  induction l as [|x l IH]; simpl; [reflexivity|].
  rewrite forallb_app, IH. simpl. rewrite andb_true_r. apply andb_comm.
Qed.

Lemma strip_nil s : strip s = [] -> forallb isspace s = true.
Proof.
  unfold strip, rstrip. intros H.
  assert (H1 : lstrip (rev (lstrip s)) = []).
  { destruct (lstrip (rev (lstrip s))); [reflexivity|].
    simpl in H. destruct (rev l); discriminate. }
  apply lstrip_nil in H1. rewrite forallb_rev in H1.
  pose proof (lstrip_head s) as Hh.
  destruct (lstrip s) as [|c q] eqn:E.
  - apply lstrip_nil, E.
  - simpl in H1. rewrite Hh in H1. discriminate.
Qed.

Lemma strip_last s :
  strip s <> [] -> exists q c, strip s = q ++ [c] /\ isspace c = false.
Proof.
  unfold strip, rstrip. intros H.
  pose proof (lstrip_head (rev (lstrip s))) as Hh.
  destruct (lstrip (rev (lstrip s))) as [|c q]; [contradiction|].
  exists (rev q), c. simpl. auto.
Qed.

Lemma strip_blank s : forallb isspace s = true -> strip s = [].
Proof.
  intros H. unfold strip, rstrip.
  assert (E : lstrip s = []).
  { induction s as [|c s IH]; simpl in *; [reflexivity|].
    apply andb_true_iff in H as [-> H]. auto. }
  rewrite E. reflexivity.
Qed.

(** ** Stripped text *)
Lemma lstrip_fixed s :
  match s with [] => True | c :: _ => isspace c = false end -> lstrip s = s.
Proof. destruct s as [|c s]; simpl; [auto | intros ->; reflexivity]. Qed.

Lemma lstrip_lstrip s : lstrip (lstrip s) = lstrip s.
Proof. apply lstrip_fixed, lstrip_head. Qed.

Lemma lstrip_decompose s :
  exists p, s = p ++ lstrip s /\ forallb isspace p = true.
Proof.
  induction s as [|c s (p & E & Hp)]; simpl.
  - exists []. auto.
  - destruct (isspace c) eqn:Ec.
    + exists (c :: p). simpl. rewrite Ec, Hp. split; [f_equal; exact E | auto].
    + exists []. auto.
Qed.

Lemma rstrip_decompose s :
  exists q, s = rstrip s ++ q /\ forallb isspace q = true.
Proof.
  unfold rstrip. destruct (lstrip_decompose (rev s)) as (p & E & Hp).
  exists (rev p). rewrite forallb_rev. split; [|exact Hp].
  rewrite <- rev_app_distr, <- E, rev_involutive. reflexivity.
Qed.

Lemma strip_decompose s :
  exists p q, s = p ++ strip s ++ q /\
              forallb isspace p = true /\ forallb isspace q = true.
Proof.
  destruct (lstrip_decompose s) as (p & E1 & Hp).
  destruct (rstrip_decompose (lstrip s)) as (q & E2 & Hq).
  exists p, q. unfold strip. rewrite <- E2. auto.
Qed.

Lemma strip_head s :
  match strip s with [] => True | c :: _ => isspace c = false end.
Proof.
  destruct (rstrip_decompose (lstrip s)) as (q & E & _).
  pose proof (lstrip_head s) as H. unfold strip.
  destruct (rstrip (lstrip s)) as [|c r]; [exact I|].
  rewrite E in H. exact H.
Qed.

Lemma strip_strip s : strip (strip s) = strip s.
Proof.
  unfold strip at 1. rewrite (lstrip_fixed _ (strip_head s)).
  unfold strip, rstrip. rewrite rev_involutive, lstrip_lstrip. reflexivity.
Qed.

Lemma in_strip c s : In c (strip s) -> In c s.
Proof.
  destruct (strip_decompose s) as (p & q & E & _). intros H.
  rewrite E. apply in_or_app. right. apply in_or_app. left. exact H.
Qed.

Lemma match_header_spec s g1 g2 :
  match_header s = Some (g1, g2) ->
  exists r4,
    s = py "### Issue #" ++ g1 ++ py ": " ++ g2 ++ r4 /\
    g1 <> [] /\ forallb isdigit g1 = true /\ g2 <> [] /\
    (r4 = [] \/ r4 = [nl]).
Proof.
  unfold match_header. intros H.
  destruct (after_prefix (py "### Issue #") s) as [r1|] eqn:E1; [|discriminate].
  apply after_prefix_Some in E1.
  destruct (span isdigit r1) as [ds r2] eqn:E2.
  apply span_spec in E2 as (-> & Hds & _).
  destruct ds as [|d ds]; [discriminate|]. cbn [truthy] in H.
  destruct (after_prefix (py ": ") r2) as [r3|] eqn:E3; [|discriminate].
  apply after_prefix_Some in E3. subst r2.
  destruct (span _ r3) as [x r4] eqn:E4.
  apply span_spec in E4 as (-> & _ & Hr4).
  destruct x as [|c x]; [discriminate|]. cbn [truthy] in H.
  assert (Hg : g1 = d :: ds /\ g2 = c :: x /\ (r4 = [] \/ r4 = [nl])).
  { destruct r4 as [|e [|e' r4]]; inversion H; subst; repeat split; auto.
    right. f_equal. apply negb_false_iff in Hr4.
    apply bool_decide_eq_true in Hr4. exact Hr4. }
  destruct Hg as (-> & -> & Hr). exists r4. subst s.
  repeat split; auto; discriminate.
Qed.

Lemma header_of_spec line n t :
  header_of line = Some (n, t) ->
  exists ds rest,
    strip line = py "### Issue #" ++ ds ++ py ": " ++ rest /\
    ds <> [] /\ forallb isdigit ds = true /\
    n = decimal_value ds /\ t = strip rest /\ t <> [].
Proof.
  unfold header_of. intros H.
  destruct (match_header (strip line)) as [[g1 g2]|] eqn:E; [|discriminate].
  inversion H; subst n t; clear H.
  apply match_header_spec in E as (r4 & Es & Hg1 & Hd & Hg2 & Hr4).
  assert (Hne : strip line <> []) by (rewrite Es; discriminate).
  destruct (strip_last _ Hne) as (q & c & Eq & Hc).
  destruct (exists_last Hg2) as (g2' & c' & ->).
  assert (Er : r4 = [] /\ c' = c).
  { destruct Hr4 as [-> | ->].
    - split; [reflexivity|]. rewrite Eq, app_nil_r in Es.
      rewrite !app_assoc in Es. apply app_inj_tail in Es as [_ ->].
      reflexivity.
    - exfalso. rewrite Eq in Es.
      replace (py "### Issue #" ++ g1 ++ py ": " ++ (g2' ++ [c']) ++ [nl])
        with ((py "### Issue #" ++ g1 ++ py ": " ++ g2' ++ [c']) ++ [nl])
        in Es by (rewrite <- !app_assoc; reflexivity).
      apply app_inj_tail in Es as [_ ->]. discriminate Hc. }
  destruct Er as [-> ->]. rewrite app_nil_r in Es.
  exists g1, (g2' ++ [c]). repeat split; auto.
  intros Hs. apply strip_nil in Hs. rewrite forallb_app in Hs.
  apply andb_true_iff in Hs as [_ Hs]. simpl in Hs. rewrite Hc in Hs.
  discriminate.
Qed.

Lemma flush_prepend p st : flush (prepend p st) = p ++ flush st.
Proof.
  unfold flush, prepend; simpl.
  destruct (current_issue st); [symmetry; apply app_assoc | reflexivity].
Qed.

Lemma step_header st line n t :
  header_of line = Some (n, t) ->
  pure_step st line = prepend (flush st) (opened n t).
Proof.
  unfold header_of, pure_step. intros H.
  destruct (match_header (strip line)) as [[g1 g2]|]; [|discriminate].
  inversion H; subst. unfold prepend, opened; simpl.
  rewrite app_nil_r. reflexivity.
Qed.

(** A line that is not a header, read while a block is open. *)
Lemma step_inside iss c sec line :
  is_header line = false -> is_terminator line = false ->
  pure_step (mkState iss (Some c) sec true) line =
  let (c', sec') := fill (c, sec) line in mkState iss (Some c') sec' true.
Proof.
  unfold is_header, header_of, is_terminator, pure_step, fill, is_labels_line,
    marker_of, is_blank. intros Hh Ht.
  destruct (match_header (strip line)) as [[g1 g2]|]; [discriminate|].
  cbn [in_issue negb current_section].
  destruct (startswith labels_marker (strip line)); [reflexivity|].
  destruct (str_eqb (strip line) (py "**Description:**")); [reflexivity|].
  destruct (str_eqb (strip line) (py "**Objectifs:**")); [reflexivity|].
  destruct (str_eqb (strip line) (py "**Acceptance Criteria:**"));
    [reflexivity|].
  rewrite Ht. destruct sec as [s|]; [|reflexivity].
  destruct (truthy (strip line)); reflexivity.
Qed.

Lemma step_terminator iss c sec line :
  is_header line = false -> is_terminator line = true ->
  pure_step (mkState iss (Some c) sec true) line = mkState iss (Some c) None false.
Proof.
  unfold is_header, header_of, is_terminator, pure_step. intros Hh Ht.
  destruct (match_header (strip line)) as [[g1 g2]|]; [discriminate|].
  simpl. assert (E : strip line = py "---").
  { apply bool_decide_eq_true in Ht. exact Ht. }
  rewrite E. reflexivity.
Qed.

Lemma step_outside st line :
  is_header line = false -> in_issue st = false -> pure_step st line = st.
Proof.
  unfold is_header, header_of, pure_step. intros Hh Hi.
  destruct (match_header (strip line)) as [[g1 g2]|]; [discriminate|].
  rewrite Hi. reflexivity.
Qed.

Lemma step_prepend p st line :
  pure_step (prepend p st) line = prepend p (pure_step st line).
Proof.
  destruct (header_of line) as [[n t]|] eqn:E.
  - rewrite !(step_header _ _ _ _ E), flush_prepend.
    unfold prepend; simpl. rewrite !app_nil_r. reflexivity.
  - unfold header_of in E. unfold pure_step.
    destruct (match_header (strip line)) as [[g1 g2]|]; [discriminate|].
    destruct st as [iss cur sec b]. unfold prepend; simpl.
    destruct b; simpl; [|reflexivity].
    repeat (match goal with
            | |- context [if ?b then _ else _] => destruct b
            end; try reflexivity).
    destruct sec; reflexivity.
Qed.

Lemma loop_prepend p st ls :
  pure_loop (prepend p st) ls = prepend p (pure_loop st ls).
Proof.
  revert st; induction ls as [|l ls IH]; intros st; simpl; [reflexivity|].
  rewrite step_prepend. apply IH.
Qed.

Lemma loop_app st l1 l2 : pure_loop st (l1 ++ l2) = pure_loop (pure_loop st l1) l2.
Proof. apply fold_left_app. Qed.

Lemma loop_cons st l ls : pure_loop st (l :: ls) = pure_loop (pure_step st l) ls.
Proof. reflexivity. Qed.

Lemma loop_inside iss c sec body :
  Forall (fun l => is_header l = false /\ is_terminator l = false) body ->
  pure_loop (mkState iss (Some c) sec true) body =
  let (c', sec') := fold_left fill body (c, sec) in
  mkState iss (Some c') sec' true.
Proof.
  intros H; revert c sec; induction H as [|l body [Hh Ht] _ IH];
    intros c sec; [reflexivity|].
  rewrite loop_cons, (step_inside _ _ _ _ Hh Ht).
  change (fold_left fill (l :: body) (c, sec))
    with (fold_left fill body (fill (c, sec) l)).
  destruct (fill (c, sec) l) as [c1 sec1]. apply IH.
Qed.

(** Outside a block nothing is read until the next header. *)
Lemma loop_closed st ls :
  in_issue st = false ->
  flush (pure_loop st ls) = flush st ++ flush (pure_loop init ls).
Proof.
  revert st; induction ls as [|l ls IH]; intros st Hi; simpl.
  - rewrite app_nil_r. reflexivity.
  - destruct (header_of l) as [[n t]|] eqn:E.
    + rewrite !(step_header _ _ _ _ E), !loop_prepend, !flush_prepend.
      reflexivity.
    + assert (Hh : is_header l = false) by (unfold is_header; rewrite E; auto).
      rewrite !(step_outside _ _ Hh) by auto. apply IH, Hi.
Qed.

Lemma ident_set_labels ls c : ident (set_labels ls c) = ident c.
Proof. reflexivity. Qed.

Lemma ident_append_to s line c : ident (append_to s line c) = ident c.
Proof. destruct s; reflexivity. Qed.

Lemma ident_clean c : ident (clean c) = ident c.
Proof. reflexivity. Qed.

Lemma flush_with_current f st :
  (forall c, ident (f c) = ident c) ->
  map ident (flush (with_current f st)) = map ident (flush st).
Proof.
  intros Hf. unfold flush, with_current; simpl.
  destruct (current_issue st); simpl; [|reflexivity].
  rewrite !map_app. simpl. rewrite Hf. reflexivity.
Qed.

Lemma step_idents st line :
  map ident (flush (pure_step st line)) =
  map ident (flush st)
  ++ match header_of line with Some h => [h] | None => [] end.
Proof.
  destruct (header_of line) as [[n t]|] eqn:E.
  - rewrite (step_header _ _ _ _ E), flush_prepend, map_app. reflexivity.
  - rewrite app_nil_r. unfold header_of in E. unfold pure_step.
    destruct (match_header (strip line)) as [[g1 g2]|]; [discriminate|].
    destruct (in_issue st); simpl; [|reflexivity].
    repeat (match goal with
            | |- context [if ?b then _ else _] => destruct b
            end; try reflexivity;
            try (apply flush_with_current; intros; reflexivity)).
    all: destruct (current_section st) as [s|]; try reflexivity.
    all: apply flush_with_current, ident_append_to.
Qed.

Lemma loop_idents st ls :
  map ident (flush (pure_loop st ls)) = map ident (flush st) ++ omap header_of ls.
Proof.
  revert st; induction ls as [|l ls IH]; intros st; simpl.
  - rewrite app_nil_r. reflexivity.
  - rewrite IH, step_idents, <- app_assoc. f_equal.
    destruct (header_of l); reflexivity.
Qed.

(** One record for each header line, in the order of the document. *)
Lemma scan_idents ls : map ident (pure_scan ls) = omap header_of ls.
Proof.
  unfold pure_scan. rewrite map_map.
  rewrite (map_ext _ ident) by (intros; apply ident_clean).
  apply (loop_idents init).
Qed.

Lemma insert_by_perm {A} (key : A -> N) x l :
  Permutation (insert_by key x l) (x :: l).
Proof.
  induction l as [|y l IH]; simpl; [reflexivity|].
  destruct (key x <=? key y)%N; [reflexivity|].
  rewrite IH. apply perm_swap.
Qed.

Lemma sorted_perm {A} (key : A -> N) l : Permutation (sorted key l) l.
Proof.
  induction l as [|x l IH]; simpl; [reflexivity|].
  rewrite insert_by_perm, IH. reflexivity.
Qed.

Lemma insert_by_sorted {A} (key : A -> N) x l :
  Sorted (fun a b => (key a <= key b)%N) l ->
  Sorted (fun a b => (key a <= key b)%N) (insert_by key x l).
Proof.
  induction 1 as [|y l Hs IH Hd]; simpl.
  - repeat constructor.
  - destruct (N.leb_spec (key x) (key y)) as [Hle|Hgt].
    + repeat constructor; assumption.
    + constructor; [exact IH|].
      destruct Hd as [|z l Hyz]; simpl.
      * constructor. lia.
      * destruct (key x <=? key z)%N; constructor; [lia | exact Hyz].
Qed.

Lemma sorted_sorted {A} (key : A -> N) l :
  Sorted (fun a b => (key a <= key b)%N) (sorted key l).
Proof.
  induction l as [|x l IH]; simpl; [constructor|].
  apply insert_by_sorted, IH.
Qed.

Lemma in_sorted {A} (key : A -> N) l x : In x (sorted key l) <-> In x l.
Proof.
  split; apply Permutation_in; [|symmetry]; apply sorted_perm.
Qed.

Lemma filter_insert_by {A} (key : A -> N) k x l :
  List.filter (fun r => (key r =? k)%N) (insert_by key x l)
  = List.filter (fun r => (key r =? k)%N) (x :: l).
Proof.
  induction l as [|y l IH]; [reflexivity|]. cbn [insert_by].
  destruct (N.leb_spec (key x) (key y)) as [Hle|Hgt]; [reflexivity|].
  cbn [List.filter] in *. rewrite IH.
  destruct (N.eqb_spec (key x) k) as [Ex|Ex];
    destruct (N.eqb_spec (key y) k) as [Ey|Ey]; try reflexivity. lia.
Qed.

Lemma step_consistent st line : consistent st -> consistent (pure_step st line).
Proof.
  intros [H1 H2]. unfold consistent, pure_step.
  destruct (match_header (strip line)) as [[g1 g2]|]; simpl.
  - split; [intros [? ?]; discriminate | eauto].
  - destruct (in_issue st) eqn:Ei; simpl; [|auto].
    destruct (H2 eq_refl) as [c Ec].
    repeat (match goal with
            | |- context [if ?b then _ else _] => destruct b
            end; simpl; rewrite ?Ei, ?Ec; simpl;
            try (split; eauto; fail)).
    + split; [intros [? ?]; discriminate | discriminate].
    + destruct (current_section st); simpl; rewrite ?Ei, ?Ec; simpl;
        split; eauto.
    + destruct (current_section st); simpl; rewrite ?Ei, ?Ec; simpl;
        split; eauto.
Qed.

Lemma after_consistent ls : consistent (pure_after ls).
Proof.
  unfold pure_after. assert (H : consistent init).
  { split; simpl; [intros [? ?]|]; discriminate. }
  revert H. generalize init. induction ls as [|l ls IH]; intros st H; simpl.
  - exact H.
  - apply IH, step_consistent, H.
Qed.

Lemma after_snoc ls line : pure_after (ls ++ [line]) = pure_step (pure_after ls) line.
Proof. unfold pure_after. rewrite loop_app. reflexivity. Qed.

Lemma step_blank st line : is_blank line = true -> pure_step st line = st.
Proof.
  unfold is_blank. intros H. apply negb_true_iff in H.
  assert (E : strip line = []) by (destruct (strip line); [auto | discriminate]).
  unfold pure_step. rewrite E. simpl.
  destruct (in_issue st); simpl; [|reflexivity].
  destruct (current_section st); reflexivity.
Qed.

(** One record is emitted for each header line: none is dropped. *)
Lemma records_of_headers ls :
  map ident (pure_parse ls) ≡ₚ omap header_of ls.
Proof.
  unfold pure_parse. rewrite <- scan_idents.
  apply Permutation_map, sorted_perm.
Qed.

Lemma replace_char c s :
  replace [c] [] s = List.filter (fun x => negb (bool_decide (x = c))) s.
Proof.
  unfold replace. induction s as [|x s IH]; [reflexivity|].
  cbn [replace_from startswith List.filter length Nat.sub].
  rewrite andb_true_r. case_bool_decide as E1; case_bool_decide as E2;
    try congruence; simpl; rewrite IH; reflexivity.
Qed.

Lemma undecorate_replace s :
  replace (py "'") [] (replace (py "`") [] s) = undecorate s.
Proof.
  change (py "'") with ["'"%char]. change (py "`") with ["`"%char].
  rewrite !replace_char. unfold undecorate, is_deco.
  induction s as [|x s IH]; [reflexivity|]. simpl.
  destruct (bool_decide (x = "`"%char)) eqn:E1; simpl.
  - exact IH.
  - destruct (bool_decide (x = "'"%char)); simpl; rewrite IH; reflexivity.
Qed.

Lemma parse_labels_tokens line :
  parse_labels line =
  map (fun tok => undecorate (strip tok))
      (List.filter (fun tok => negb (is_blank tok)) (label_tokens line)).
Proof.
  unfold parse_labels, label_tokens, is_blank.
  rewrite (map_ext _ (fun tok => undecorate (strip tok)))
    by (intros; apply undecorate_replace).
  f_equal. apply filter_ext. intros a. rewrite negb_involutive. reflexivity.
Qed.

Lemma undecorate_nil s : undecorate s = [] <-> forallb is_deco s = true.
Proof.
  unfold undecorate. induction s as [|x s IH]; simpl; [tauto|].
  destruct (is_deco x); simpl; [exact IH|]. split; discriminate.
Qed.

Lemma flush_with_current_Forall (Q : Issue -> Prop) f st :
  (forall c, Q c -> Q (f c)) ->
  Forall Q (flush st) -> Forall Q (flush (with_current f st)).
Proof.
  intros Hf. unfold flush, with_current; simpl.
  destruct (current_issue st); simpl; [|auto].
  rewrite !Forall_app. intros [H1 H2]. split; [exact H1|].
  inversion H2; subst. repeat constructor. auto.
Qed.

Lemma step_labels_from doc st line :
  In line doc ->
  Forall (labels_from doc) (flush st) ->
  Forall (labels_from doc) (flush (pure_step st line)).
Proof.
  intros Hin H. unfold pure_step.
  destruct (match_header (strip line)) as [[g1 g2]|].
  - unfold flush at 1; simpl. rewrite Forall_app. split; [exact H|].
    repeat constructor.
  - destruct (in_issue st); cbn [negb]; [|exact H].
    destruct (startswith labels_marker (strip line)) eqn:El.
    { apply flush_with_current_Forall; [|exact H].
      intros c _. right. exists line. auto. }
    repeat (match goal with
            | |- context [if ?b then _ else _] => destruct b
            end; try exact H).
    all: destruct (current_section st) as [s|]; try exact H.
    all: apply flush_with_current_Forall; [|exact H].
    all: intros c Hc; destruct s; exact Hc.
Qed.

Lemma loop_labels_from doc st ls :
  (forall l, In l ls -> In l doc) ->
  Forall (labels_from doc) (flush st) ->
  Forall (labels_from doc) (flush (pure_loop st ls)).
Proof.
  revert st; induction ls as [|l ls IH]; intros st Hsub H; simpl; [exact H|].
  apply IH; [intros; apply Hsub; right; assumption|].
  apply step_labels_from; [apply Hsub; left; reflexivity | exact H].
Qed.

Lemma split_no_sep sep s : Forall (fun tok => ~ In sep tok) (split sep s).
Proof.
  induction s as [|c s IH]; simpl.
  - repeat constructor. intros [].
  - case_bool_decide as E.
    + constructor; [intros [] | exact IH].
    + destruct (split sep s) as [|t ts].
      * repeat constructor. intros [H | []]. congruence.
      * inversion IH; subst. constructor; [|assumption].
        intros [H | H]; [congruence | auto].
Qed.

Lemma omap_header_nil ls :
  omap header_of ls = [] <-> Forall (fun l => is_header l = false) ls.
Proof.
  induction ls as [|l ls IH]; cbn [omap list_omap].
  - split; [constructor | reflexivity].
  - unfold is_header at 1. destruct (header_of l) as [h|] eqn:E.
    + split; [discriminate|]. intros H; inversion H as [|? ? Hl].
      rewrite E in Hl. discriminate Hl.
    + rewrite IH. split; [intros H; constructor; [rewrite E|]; auto |].
      intros H; inversion H; assumption.
Qed.

Lemma step_keeps_labels st line :
  is_header line = false -> is_labels_line line = false ->
  option_map labels (current_issue (pure_step st line))
  = option_map labels (current_issue st).
Proof.
  unfold is_header, header_of, is_labels_line, pure_step. intros Hh Hl.
  destruct (match_header (strip line)) as [[g1 g2]|]; [discriminate|].
  rewrite Hl. destruct (in_issue st); cbn [negb]; [|reflexivity].
  repeat (match goal with
          | |- context [if ?b then _ else _] => destruct b
          end; try reflexivity).
  all: destruct (current_section st) as [s|]; try reflexivity.
  all: unfold with_current; cbn [current_issue].
  all: destruct (current_issue st) as [c|]; [|reflexivity].
  all: destruct s; reflexivity.
Qed.

Lemma step_content_no_section st line :
  is_content line = true -> current_section st = None -> pure_step st line = st.
Proof.
  unfold is_content, is_header, header_of, is_labels_line, marker_of,
    is_terminator, pure_step. intros Hc Hs.
  destruct (match_header (strip line)) as [[g1 g2]|]; [discriminate|].
  destruct (in_issue st); cbn [negb]; [|reflexivity].
  destruct (startswith labels_marker (strip line)); [discriminate|].
  destruct (str_eqb (strip line) (py "**Description:**")); [discriminate|].
  destruct (str_eqb (strip line) (py "**Objectifs:**")); [discriminate|].
  destruct (str_eqb (strip line) (py "**Acceptance Criteria:**"));
    [discriminate|].
  destruct (str_eqb (strip line) (py "---")); [discriminate|].
  rewrite Hs. reflexivity.
Qed.

Lemma step_terminator_closes st line :
  is_terminator line = true -> in_issue (pure_step st line) = false.
Proof.
  unfold is_terminator, pure_step. intros Ht.
  apply bool_decide_eq_true in Ht. rewrite Ht.
  change (match_header (py "---")) with (@None (str * str)).
  destruct (in_issue st) eqn:Ei; [reflexivity | exact Ei].
Qed.

Lemma loop_outside st ls :
  in_issue st = false -> Forall (fun l => is_header l = false) ls ->
  pure_loop st ls = st.
Proof.
  intros Hi H. induction H as [|l ls Hl _ IH]; [reflexivity|].
  rewrite loop_cons, step_outside by auto. exact IH.
Qed.

(** ** The parser and the limit of [int] *)

Lemma step_pure st line :
  step st line = if int_ok line then Some (pure_step st line) else None.
Proof.
  unfold step, pure_step, int_ok, int_of_digits.
  destruct (match_header (strip line)) as [[g1 g2]|]; [|reflexivity].
  destruct (length g1 <=? int_max_str_digits)%nat; reflexivity.
Qed.

Lemma loop_pure st ls :
  loop st ls = if forallb int_ok ls then Some (pure_loop st ls) else None.
Proof.
  revert st; induction ls as [|l ls IH]; intros st; [reflexivity|].
  cbn [loop forallb]. rewrite step_pure.
  destruct (int_ok l); [apply IH | reflexivity].
Qed.

Lemma after_pure ls :
  after ls = if forallb int_ok ls then Some (pure_after ls) else None.
Proof. apply loop_pure. Qed.

Lemma scan_pure ls :
  scan ls = if forallb int_ok ls then Some (pure_scan ls) else None.
Proof.
  unfold scan. rewrite loop_pure. destruct (forallb int_ok ls); reflexivity.
Qed.

Lemma parse_lines_pure ls :
  parse_lines ls = if forallb int_ok ls then Some (pure_parse ls) else None.
Proof.
  unfold parse_lines. rewrite scan_pure.
  destruct (forallb int_ok ls); reflexivity.
Qed.

Lemma parse_Some content rs :
  parse_issues_file content = Some rs <->
  forallb int_ok (readlines content) = true /\
  rs = pure_parse (readlines content).
Proof.
  unfold parse_issues_file. rewrite parse_lines_pure.
  destruct (forallb int_ok (readlines content)); split.
  - intros H; inversion H; auto.
  - intros [_ ->]; reflexivity.
  - discriminate.
  - intros [H _]; discriminate H.
Qed.

Lemma after_Some ls st :
  after ls = Some st <-> forallb int_ok ls = true /\ st = pure_after ls.
Proof.
  rewrite after_pure. destruct (forallb int_ok ls); split.
  - intros H; inversion H; auto.
  - intros [_ ->]; reflexivity.
  - discriminate.
  - intros [H _]; discriminate H.
Qed.

Lemma int_ok_not_header l : is_header l = false -> int_ok l = true.
Proof.
  unfold is_header, header_of, int_ok.
  destruct (match_header (strip l)) as [[g1 g2]|]; [discriminate | auto].
Qed.

Lemma int_ok_content l : is_content l = true -> int_ok l = true.
Proof.
  unfold is_content. intros H. apply int_ok_not_header.
  destruct (is_header l); [discriminate H | reflexivity].
Qed.

Lemma forallb_int_ok_not_header ls :
  Forall (fun l => is_header l = false) ls -> forallb int_ok ls = true.
Proof.
  induction 1 as [|l ls Hl _ IH]; [reflexivity|].
  cbn [forallb]. rewrite (int_ok_not_header _ Hl), IH. reflexivity.
Qed.

Lemma parsed_labels_from lines r :
  In r (pure_parse lines) -> labels_from lines r.
Proof.
  unfold pure_parse, pure_scan. intros Hr.
  apply in_sorted, in_map_iff in Hr as (c & <- & Hc).
  assert (H : Forall (labels_from lines) (flush (pure_loop init lines))).
  { apply loop_labels_from; [auto | constructor]. }
  rewrite Forall_forall in H. apply list_elem_of_In in Hc. exact (H c Hc).
Qed.

Lemma clean_block n t body :
  clean (fst (fold_left fill body (new_issue n t, None)))
  = block_record n t body.
Proof.
  unfold block_record, clean.
  assert (H : forall acc, number (fst (fold_left fill body acc))
                          = number (fst acc) /\
                          title (fst (fold_left fill body acc))
                          = title (fst acc)).
  { induction body as [|l body IH]; intros acc; [auto|].
    cbn [fold_left]. destruct (IH (fill acc l)) as [-> ->].
    destruct acc as [c sec]. unfold fill.
    destruct (is_labels_line l); [auto|].
    destruct (marker_of l); [auto|].
    destruct sec as [s|]; [|auto].
    destruct (is_blank l); [auto|]. destruct s; auto. }
  destruct (H (new_issue n t, None)) as [-> ->]. reflexivity.
Qed.

Lemma header_of_groups line n t :
  header_of line = Some (n, t) ->
  exists g1 g2,
    match_header (strip line) = Some (g1, g2) /\
    strip line = py "### Issue #" ++ g1 ++ py ": " ++ g2 /\
    g1 <> [] /\ forallb isdigit g1 = true /\
    n = decimal_value g1 /\ t = strip g2 /\ t <> [].
Proof.
  unfold header_of. intros H.
  destruct (match_header (strip line)) as [[g1 g2]|] eqn:E; [|discriminate].
  inversion H; subst n t; clear H.
  destruct (match_header_spec _ _ _ E) as (r4 & Es & Hg1 & Hd & Hg2 & Hr4).
  assert (Hne : strip line <> []) by (rewrite Es; discriminate).
  destruct (strip_last _ Hne) as (q & c & Eq & Hc).
  destruct (exists_last Hg2) as (g2' & c' & Eg).
  assert (Er : r4 = [] /\ c' = c).
  { rewrite Eg in Es. destruct Hr4 as [-> | ->].
    - split; [reflexivity|]. rewrite Eq, app_nil_r in Es.
      rewrite !app_assoc in Es. apply app_inj_tail in Es as [_ ->].
      reflexivity.
    - exfalso. rewrite Eq in Es.
      replace (py "### Issue #" ++ g1 ++ py ": " ++ (g2' ++ [c']) ++ [nl])
        with ((py "### Issue #" ++ g1 ++ py ": " ++ g2' ++ [c']) ++ [nl])
        in Es by (rewrite <- !app_assoc; reflexivity).
      apply app_inj_tail in Es as [_ ->]. discriminate Hc. }
  destruct Er as [-> ->]. rewrite app_nil_r in Es.
  exists g1, g2. repeat split; auto.
  intros Hs. apply strip_nil in Hs. rewrite Eg, forallb_app in Hs.
  apply andb_true_iff in Hs as [_ Hs]. simpl in Hs. rewrite Hc in Hs.
  discriminate.
Qed.

Lemma forallb_Forall_true {A} (p : A -> bool) l :
  forallb p l = true <-> Forall (fun x => p x = true) l.
Proof.
  induction l as [|x l IH]; cbn [forallb].
  - split; [constructor | reflexivity].
  - rewrite andb_true_iff, IH. split.
    + intros [H1 H2]; constructor; assumption.
    + intros H; inversion H; auto.
Qed.

Lemma body_lines_check body :
  forallb (fun l => negb (is_header l) && negb (is_terminator l)) body = true ->
  Forall (fun l => is_header l = false /\ is_terminator l = false) body.
Proof.
  intros H. apply forallb_Forall_true in H.
  induction H as [|l body Hl _ IH]; constructor; [|exact IH].
  apply andb_true_iff in Hl as [H1 H2].
  apply negb_true_iff in H1, H2. auto.
Qed.

Lemma blank_not_header line : is_blank line = true -> is_header line = false.
Proof.
  unfold is_blank, is_header, header_of. intros H.
  apply negb_true_iff in H.
  destruct (strip line); [reflexivity | discriminate].
Qed.

(** ** Claims on the parser *)

(** C6. While a section is selected, a line that is not blank (and is
    section content, not a header, a Labels line, a section marker or the
    terminator) is appended as it is, with its newline, to the text of that
    section; a blank line changes nothing, whatever the state; and a section
    whose lines are [a], an empty line and [b] is recorded as [a\nb]. *)
Theorem section_lines_appended_blank_dropped :
  (forall ls st line sec,
     after ls = Some st ->
     current_section st = Some sec ->
     is_content line = true -> is_blank line = false ->
     exists c,
       current_issue st = Some c /\
       after (ls ++ [line]) =
       Some {| issues := issues st;
               current_issue := Some (append_to sec line c);
               current_section := Some sec;
               in_issue := true |}) /\
  (forall st line, is_blank line = true -> step st line = Some st) /\
  parse_issues_file (py "### Issue #7: Paragraphs
**Description:**
a

b
**Objectifs:**
a

b
**Acceptance Criteria:**
a

b
") =
  Some [ {| number := 7; title := py "Paragraphs"; labels := [];
            description := py "a
b";
            objectives := py "a
b";
            acceptance := py "a
b" |} ].
Proof.
  split; [|split].
  - intros ls st line sec Ha Hs Hc Hb.
    apply after_Some in Ha as [Hok ->].
    destruct (after_consistent ls) as [H1 H2].
    assert (Hi : in_issue (pure_after ls) = true)
      by (apply H1; rewrite Hs; eauto).
    destruct (H2 Hi) as [c Ec]. exists c. split; [exact Ec|].
    rewrite after_pure, forallb_app. cbn [forallb].
    rewrite Hok, (int_ok_content _ Hc). cbn [andb]. f_equal.
    rewrite after_snoc. destruct (pure_after ls) as [iss cur s b].
    simpl in *. subst cur s b.
    unfold is_content in Hc.
    apply andb_true_iff in Hc as [Hc Ht].
    apply andb_true_iff in Hc as [Hc Hm].
    apply andb_true_iff in Hc as [Hh Hl].
    apply negb_true_iff in Hh, Hl, Ht.
    rewrite (step_inside _ _ _ _ Hh Ht). unfold fill.
    rewrite Hl, Hb. destruct (marker_of line); [discriminate|reflexivity].
  - intros st line Hb.
    rewrite step_pure, (int_ok_not_header _ (blank_not_header _ Hb)).
    rewrite (step_blank _ _ Hb). reflexivity.
  - vm_compute. reflexivity.
Qed.

Lemma section_lines_appended_blank_dropped_witness :
  let ls := [py "### Issue #1: T"; py "**Description:**"] in
  let line := py "some text
" in
  exists st,
    after ls = Some st /\
    current_section st = Some Description /\
    is_content line = true /\ is_blank line = false /\
    exists c,
      current_issue st = Some c /\
      after (ls ++ [line]) =
      Some {| issues := issues st;
              current_issue := Some (append_to Description line c);
              current_section := Some Description;
              in_issue := true |}.
Proof.
  eexists. split; [vm_compute; reflexivity|].
  split; [reflexivity|]. split; [reflexivity|]. split; [reflexivity|].
  apply (proj1 section_lines_appended_blank_dropped
           [py "### Issue #1: T"; py "**Description:**"]);
    vm_compute; reflexivity.
Defined.

Lemma pure_scan_block pre h n t body rest :
  header_of h = Some (n, t) ->
  Forall (fun l => is_header l = false /\ is_terminator l = false) body ->
  (rest = [] \/
   exists l r, rest = l :: r /\ (is_terminator l = true \/ is_header l = true)) ->
  pure_scan (pre ++ h :: body ++ rest)
  = pure_scan pre ++ block_record n t body :: pure_scan rest.
Proof.
  intros Hh Hbody Hrest. rewrite <- clean_block. unfold pure_scan.
  rewrite loop_app, loop_cons, (step_header _ _ _ _ Hh), loop_prepend,
    flush_prepend, map_app. f_equal.
  rewrite loop_app. unfold opened. rewrite (loop_inside _ _ _ _ Hbody).
  destruct (fold_left fill body (new_issue n t, None)) as [c sec].
  cbn [fst].
  destruct Hrest as [-> | (l & r & -> & [Ht | Hl])].
  - reflexivity.
  - assert (Hn : is_header l = false).
    { unfold is_terminator in Ht. apply bool_decide_eq_true in Ht.
      unfold is_header, header_of. rewrite Ht. reflexivity. }
    rewrite loop_cons, (step_terminator _ _ _ _ Hn Ht).
    rewrite loop_closed by reflexivity.
    rewrite (loop_cons init), (step_outside init _ Hn) by reflexivity.
    reflexivity.
  - unfold is_header in Hl.
    destruct (header_of l) as [[n' t']|] eqn:E; [|discriminate].
    rewrite !loop_cons, !(step_header _ _ _ _ E), !loop_prepend,
      !flush_prepend. reflexivity.
Qed.

(** The claim C7 fails on a final block whose number has more than 4300
    digits: [int] raises on its header and nothing is returned. *)
Lemma long_number_block_not_emitted :
  exists h body,
    readlines Scenario.long_number_block = h :: body /\
    is_header h = true /\
    Forall (fun l => is_header l = false /\ is_terminator l = false) body /\
    parse_issues_file Scenario.long_number_block = None.
Proof.
  eexists _, _. split; [vm_compute; reflexivity|].
  split; [vm_compute; reflexivity|]. split.
  - apply body_lines_check. vm_compute. reflexivity.
  - vm_compute. reflexivity.
Qed.

(** C7, amended.  In a document whose header numbers have at most 4300
    digits each, a block is closed by the terminator line, by the next
    header or by the end of the document, whichever comes first, and is
    emitted in each case; so a final block without terminator is emitted
    too.  The record emitted has its three texts stripped, and the parser
    returns as many records as the document has header lines. *)
Theorem open_record_closed_never_dropped
    (content : str) (pre : list str) (h : str) (n : N) (t : str)
    (body rest : list str) :
  readlines content = pre ++ h :: body ++ rest ->
  Forall (fun l => int_ok l = true) (readlines content) ->
  header_of h = Some (n, t) ->
  Forall (fun l => is_header l = false /\ is_terminator l = false) body ->
  (rest = [] \/
   exists l r, rest = l :: r /\ (is_terminator l = true \/ is_header l = true)) ->
  exists before later rs,
    scan pre = Some before /\ scan rest = Some later /\
    scan (readlines content)
    = Some (before ++ block_record n t body :: later) /\
    parse_issues_file content = Some rs /\
    In (block_record n t body) rs /\
    length rs = length (omap header_of (readlines content)) /\
    strip (description (block_record n t body))
    = description (block_record n t body) /\
    strip (objectives (block_record n t body))
    = objectives (block_record n t body) /\
    strip (acceptance (block_record n t body))
    = acceptance (block_record n t body).
Proof.
  intros Hdoc Hok Hh Hbody Hrest.
  apply forallb_Forall_true in Hok.
  assert (Hparts : forallb int_ok pre = true /\ forallb int_ok rest = true).
  { rewrite Hdoc, forallb_app in Hok. cbn [forallb] in Hok.
    rewrite forallb_app in Hok.
    apply andb_true_iff in Hok as [H1 H2].
    apply andb_true_iff in H2 as [_ H2].
    apply andb_true_iff in H2 as [_ H2]. auto. }
  destruct Hparts as [Hpre Hrst].
  exists (pure_scan pre), (pure_scan rest), (pure_parse (readlines content)).
  rewrite !scan_pure, Hpre, Hrst, Hok.
  split; [reflexivity|]. split; [reflexivity|]. split.
  { rewrite Hdoc. f_equal. apply pure_scan_block; assumption. }
  split; [apply parse_Some; auto|]. split.
  { unfold pure_parse. apply in_sorted. rewrite Hdoc.
    rewrite (pure_scan_block _ _ _ _ _ _ Hh Hbody Hrest).
    apply in_or_app. right. left. reflexivity. }
  split.
  { rewrite <- (length_map ident), (records_of_headers (readlines content)).
    reflexivity. }
  unfold block_record. cbn [description objectives acceptance].
  rewrite !strip_strip. auto.
Qed.

Lemma open_record_closed_never_dropped_witness :
  let content := py "intro
### Issue #3: Last one
**Description:**

  never closed   

" in
  exists rs,
    parse_issues_file content = Some rs /\
    In {| number := 3; title := py "Last one"; labels := [];
          description := py "never closed"; objectives := [];
          acceptance := [] |} rs.
Proof.
  destruct (open_record_closed_never_dropped
    (py "intro
### Issue #3: Last one
**Description:**

  never closed   

")
    [py "intro
"] (py "### Issue #3: Last one
") 3%N (py "Last one")
    [py "**Description:**
"; py "
"; py "  never closed   
"; py "
"] [])
    as (before & later & rs & _ & _ & _ & Hp & Hin & _).
  - vm_compute. reflexivity.
  - apply forallb_Forall_true. vm_compute. reflexivity.
  - vm_compute. reflexivity.
  - apply body_lines_check. vm_compute. reflexivity.
  - left. reflexivity.
  - exists rs. split; [exact Hp|].
    assert (E : block_record 3 (py "Last one")
                  [py "**Description:**
"; py "
"; py "  never closed   
"; py "
"]
                = {| number := 3; title := py "Last one"; labels := [];
                     description := py "never closed"; objectives := [];
                     acceptance := [] |}) by (vm_compute; reflexivity).
    rewrite <- E. exact Hin.
Defined.

(** C8. Every record the parser returns has a non-empty title and, as
    its number, the integer that [int] reads from the digits after [#] in a
    header line of the document; the records correspond one to one to the
    header lines, and the sequence returned is in ascending order of number.
    The parser returns nothing only when [int] refuses the digits of a
    header, more than 4300 of them.  Three headers numbered [10], [9] and
    [007] give the records 7, 9 and 10. *)
Theorem parsed_records_well_formed :
  (forall content rs,
     parse_issues_file content = Some rs ->
     (forall r, In r rs ->
        title r <> [] /\
        exists line ds rest,
          In line (readlines content) /\
          strip line = py "### Issue #" ++ ds ++ py ": " ++ rest /\
          ds <> [] /\ forallb isdigit ds = true /\
          int_of_digits ds = Some (number r) /\ title r = strip rest) /\
     map ident rs ≡ₚ omap header_of (readlines content) /\
     Sorted (fun a b => (number a <= number b)%N) rs) /\
  (forall content,
     parse_issues_file content = None <->
     exists line g1 g2,
       In line (readlines content) /\
       match_header (strip line) = Some (g1, g2) /\
       int_max_str_digits < length g1) /\
  parse_issues_file (py "### Issue #10: Ten
---
### Issue #9: Nine
### Issue #007: Seven
") =
  Some [new_issue 7 (py "Seven"); new_issue 9 (py "Nine");
        new_issue 10 (py "Ten")].
Proof.
  split; [|split].
  - intros content rs Hp. apply parse_Some in Hp as [Hok ->].
    split; [|split].
    + intros r Hr. unfold pure_parse in Hr. apply in_sorted in Hr.
      apply (in_map ident) in Hr. rewrite scan_idents in Hr.
      apply list_elem_of_In, list_elem_of_omap in Hr as (line & Hl & Hh).
      apply list_elem_of_In in Hl.
      apply header_of_groups in Hh
        as (g1 & g2 & Em & Es & Hne & Hd & Hn & Ht & Htn).
      split; [exact Htn|]. exists line, g1, g2.
      repeat split; auto.
      rewrite forallb_forall in Hok. specialize (Hok _ Hl).
      unfold int_ok in Hok. rewrite Em in Hok.
      unfold int_of_digits. rewrite Hok. f_equal. symmetry. exact Hn.
    + apply records_of_headers.
    + apply sorted_sorted.
  - intros content. unfold parse_issues_file. rewrite parse_lines_pure.
    destruct (forallb int_ok (readlines content)) eqn:E; split.
    + discriminate.
    + intros (line & g1 & g2 & Hl & Em & Hlen). exfalso.
      rewrite forallb_forall in E. specialize (E _ Hl).
      unfold int_ok in E. rewrite Em in E.
      apply Nat.leb_le in E. lia.
    + intros _. assert (Hex : exists line, In line (readlines content)
                                           /\ int_ok line = false).
      { clear -E. induction (readlines content) as [|l ls IH];
          [discriminate|]. cbn [forallb] in E.
        destruct (int_ok l) eqn:El.
        - destruct (IH E) as (x & Hx & Hf). exists x. split; [right|]; auto.
        - exists l. split; [left|]; auto. }
      destruct Hex as (line & Hl & Hf). unfold int_ok in Hf.
      destruct (match_header (strip line)) as [[g1 g2]|] eqn:Em;
        [|discriminate].
      exists line, g1, g2. repeat split; auto.
      apply Nat.leb_gt in Hf. exact Hf.
    + reflexivity.
  - vm_compute. reflexivity.
Qed.

Lemma parsed_records_well_formed_witness :
  exists rs,
    parse_issues_file Scenario.two_blocks = Some rs /\
    (forall r, In r rs -> title r <> []) /\
    Sorted (fun a b => (number a <= number b)%N) rs.
Proof.
  exists [Scenario.retries; Scenario.metrics].
  assert (Hp : parse_issues_file Scenario.two_blocks
               = Some [Scenario.retries; Scenario.metrics])
    by (vm_compute; reflexivity).
  split; [exact Hp|].
  destruct (proj1 parsed_records_well_formed _ _ Hp) as (H1 & _ & H3).
  split; [|exact H3]. intros r Hr. exact (proj1 (H1 r Hr)).
Defined.

(** ** Labels *)

(** The claim C5 fails on a token made of a lone backtick: the record has
    the empty text among its labels. *)
Lemma lone_backtick_gives_empty_label :
  exists rs r,
    parse_issues_file (py "### Issue #1: T
**Labels:** `bug`, `
") = Some rs /\ In r rs /\ In [] (labels r).
Proof.
  eexists _, _. split; [vm_compute; reflexivity|].
  split; [left; reflexivity|]. vm_compute. auto.
Qed.

(** C5, amended.  On a Labels line read inside a block the labels of the
    record become the tokens between commas of the line without its marker,
    each stripped and with its backticks and single quotes removed, the
    tokens that are blank once stripped being dropped.  So every label of
    an emitted record comes from a token that is not blank, and it is the
    empty text exactly when that token, once stripped, is made of backticks
    and single quotes only. *)
Theorem labels_line_sets_labels :
  (forall ls st line,
     after ls = Some st ->
     in_issue st = true -> is_header line = false ->
     is_labels_line line = true ->
     exists c st',
       current_issue st = Some c /\
       after (ls ++ [line]) = Some st' /\
       current_issue st' = Some (set_labels (parse_labels line) c)) /\
  (forall line,
     parse_labels line =
     map (fun tok => undecorate (strip tok))
       (List.filter (fun tok => negb (is_blank tok)) (label_tokens line))) /\
  (forall content rs r l,
     parse_issues_file content = Some rs ->
     In r rs -> In l (labels r) ->
     exists line tok,
       In line (readlines content) /\ is_labels_line line = true /\
       labels r = parse_labels line /\
       In tok (label_tokens line) /\ is_blank tok = false /\
       l = undecorate (strip tok) /\
       (l = [] <-> forallb is_deco (strip tok) = true)).
Proof.
  split; [|split].
  - intros ls st line Ha Hi Hh Hl.
    apply after_Some in Ha as [Hok ->].
    destruct (after_consistent ls) as [_ H2]. destruct (H2 Hi) as [c Ec].
    exists c, (pure_after (ls ++ [line])). split; [exact Ec|]. split.
    + rewrite after_pure, forallb_app. cbn [forallb].
      rewrite Hok, (int_ok_not_header _ Hh). reflexivity.
    + rewrite after_snoc.
      unfold pure_step. unfold is_header, header_of in Hh.
      destruct (match_header (strip line)) as [[g1 g2]|]; [discriminate|].
      rewrite Hi. unfold is_labels_line in Hl. cbn [negb]. rewrite Hl.
      unfold with_current. rewrite Ec. reflexivity.
  - apply parse_labels_tokens.
  - intros content rs r l Hp Hr Hl. apply parse_Some in Hp as [_ ->].
    destruct (parsed_labels_from _ _ Hr) as [E | (line & Hin & Hll & E)].
    + rewrite E in Hl. destruct Hl.
    + exists line. rewrite E, parse_labels_tokens in Hl.
      apply in_map_iff in Hl as (tok & <- & Htok).
      apply filter_In in Htok as [Htok Hnb].
      apply negb_true_iff in Hnb.
      exists tok. repeat split; auto; apply undecorate_nil.
Qed.

Lemma labels_line_sets_labels_witness :
  let content := py "### Issue #1: T
**Labels:** `bug`, 'ux' ,, x
" in
  exists rs r, parse_issues_file content = Some rs /\ In r rs /\
  labels r = [py "bug"; py "ux"; py "x"] /\
  exists line tok,
    In line (readlines content) /\ is_labels_line line = true /\
    labels r = parse_labels line /\
    In tok (label_tokens line) /\ is_blank tok = false /\
    py "ux" = undecorate (strip tok) /\
    (py "ux" = [] <-> forallb is_deco (strip tok) = true).
Proof.
  eexists _, _. split; [vm_compute; reflexivity|].
  split; [left; reflexivity|]. split; [reflexivity|].
  apply (proj2 (proj2 labels_line_sets_labels)
           (py "### Issue #1: T
**Labels:** `bug`, 'ux' ,, x
") [{| number := 1; title := py "T";
      labels := [py "bug"; py "ux"; py "x"]; description := [];
      objectives := []; acceptance := [] |}]).
  - vm_compute. reflexivity.
  - left. reflexivity.
  - vm_compute. auto.
Defined.

(** ** Reconciliation *)

Lemma reconcile_fold (l : list Issue) (existing : gmap (list ascii) N) acc :
  fold_left
    (fun acc issue =>
       match existing !! title issue with
       | None => (fst acc, snd acc ++ [issue])
       | Some n => (fst acc ++ [(issue, n)], snd acc)
       end) l acc
  = (fst acc ++ omap (fun i => pair i <$> existing !! title i) l,
     snd acc ++ List.filter
                  (fun i => bool_decide (existing !! title i = None)) l).
Proof.
  revert acc; induction l as [|i l IH]; intros [p m]; simpl.
  - rewrite !app_nil_r. reflexivity.
  - rewrite IH. destruct (existing !! title i) as [n|] eqn:E; simpl.
    + rewrite <- app_assoc. reflexivity.
    + rewrite <- app_assoc. reflexivity.
Qed.

Lemma reconcile_spec (l : list Issue) (existing : gmap (list ascii) N) :
  CheckAndCreate.reconcile l existing
  = (omap (fun i => pair i <$> existing !! title i) l,
     List.filter (fun i => bool_decide (existing !! title i = None)) l).
Proof. unfold CheckAndCreate.reconcile. apply reconcile_fold. Qed.

Lemma dict_of_fold (entries : list (str * N)) (m : gmap (list ascii) N) t :
  is_Some (fold_left (fun m e => <[fst e := snd e]> m) entries m !! t)
  <-> In t (map fst entries) \/ is_Some (m !! t).
Proof.
  revert m; induction entries as [|[k v] entries IH]; intros m; simpl.
  - tauto.
  - rewrite IH, lookup_insert_is_Some. destruct (decide (k = t)); tauto.
Qed.

Lemma dict_of_keys entries t :
  is_Some (CheckAndCreate.dict_of entries !! t) <-> In t (map fst entries).
Proof.
  unfold CheckAndCreate.dict_of. rewrite dict_of_fold, lookup_empty.
  split; [intros [H | [? H]]; [exact H | discriminate] | auto].
Qed.

(** C4. A record is classified as present exactly when its title is, as
    it stands, a key of the index, and as missing otherwise; both lists keep
    the order of the records.  With the only key [Fix login], the record
    titled [Fix login] followed by a space is missing. *)
Theorem reconcile_exact :
  (forall (l : list Issue) (existing : gmap (list ascii) N),
     CheckAndCreate.reconcile l existing
     = (omap (fun i => pair i <$> existing !! title i) l,
        List.filter (fun i => bool_decide (existing !! title i = None)) l)) /\
  (forall (l : list Issue) (existing : gmap (list ascii) N) r,
     (In r (snd (CheckAndCreate.reconcile l existing))
      <-> In r l /\ ~ is_Some (existing !! title r)) /\
     ((exists n, In (r, n) (fst (CheckAndCreate.reconcile l existing)))
      <-> In r l /\ is_Some (existing !! title r))) /\
  (forall entries t,
     is_Some (CheckAndCreate.dict_of entries !! t) <-> In t (map fst entries)) /\
  (forall r1 r2 k,
     title r1 = py "Fix login" -> title r2 = py "Fix login " ->
     CheckAndCreate.reconcile [r1; r2]
       (CheckAndCreate.dict_of [(py "Fix login", k)])
     = ([(r1, k)], [r2])).
Proof.
  split; [exact reconcile_spec|]. split; [|split; [exact dict_of_keys|]].
  - intros l existing r. rewrite reconcile_spec. simpl. split.
    + rewrite filter_In, bool_decide_eq_true, <- eq_None_not_Some. tauto.
    + split.
      * intros [n Hn]. apply list_elem_of_In, list_elem_of_omap in Hn
          as (i & Hi & E). apply list_elem_of_In in Hi.
        destruct (existing !! title i) as [m|] eqn:Em; [|discriminate].
        simpl in E. inversion E; subst. rewrite Em. eauto.
      * intros [Hr [n Hn]]. exists n.
        apply list_elem_of_In, list_elem_of_omap. exists r.
        split; [apply list_elem_of_In, Hr | rewrite Hn; reflexivity].
  - intros r1 r2 k H1 H2. rewrite reconcile_spec.
    cbn [omap list_omap List.filter].
    rewrite H1, H2. unfold CheckAndCreate.dict_of. cbn [fold_left fst snd].
    rewrite lookup_insert_eq, lookup_insert_ne by discriminate.
    rewrite lookup_empty. reflexivity.
Qed.

Lemma reconcile_exact_witness :
  let r1 := new_issue 1 (py "Fix login") in
  let r2 := new_issue 2 (py "Fix login ") in
  CheckAndCreate.reconcile [r1; r2]
    (CheckAndCreate.dict_of [(py "Fix login", 17%N)])
  = ([(r1, 17%N)], [r2]).
Proof.
  apply (proj2 (proj2 (proj2 reconcile_exact))); reflexivity.
Defined.

(** ** Runs against the collaborator *)

Lemma bind_return {A B} (m : M A) (k : A -> M B) t a t' :
  m t = (Return a, t') -> bind m k t = k a t'.
Proof. unfold bind. intros ->. reflexivity. Qed.

Lemma bind_raise {A B} (m : M A) (k : A -> M B) t e t' :
  m t = (Raise e, t') -> bind m k t = (Raise e, t').
Proof. unfold bind. intros ->. reflexivity. Qed.

Lemma subprocess_run_eq gh cmd t :
  subprocess_run gh cmd t = (Return (gh t cmd), t ++ [EvRun cmd (gh t cmd)]).
Proof. reflexivity. Qed.

Lemma commands_app t1 t2 : commands (t1 ++ t2) = commands t1 ++ commands t2.
Proof.
  induction t1 as [|[c r|ms] t1 IH]; simpl; [reflexivity| |exact IH].
  rewrite IH. reflexivity.
Qed.

Lemma results_app t1 t2 : results (t1 ++ t2) = results t1 ++ results t2.
Proof.
  induction t1 as [|[c r|ms] t1 IH]; simpl; [reflexivity| |exact IH].
  rewrite IH. reflexivity.
Qed.

Lemma sleeps_app t1 t2 : sleeps (t1 ++ t2) = sleeps t1 + sleeps t2.
Proof.
  induction t1 as [|[c r|ms] t1 IH]; simpl; [reflexivity|exact IH|].
  rewrite IH. reflexivity.
Qed.

Lemma match_url_truthy s u : match_url s = Some u -> truthy u = true.
Proof.
  unfold match_url. intros H.
  repeat match type of H with
         | match ?x with Some _ => _ | None => _ end = _ =>
             destruct x; [|discriminate]
         | (let (_, _) := ?x in _) = _ => destruct x
         | (if ?b then _ else _) = _ => destruct b; [|discriminate]
         end.
  inversion H. reflexivity.
Qed.

Lemma search_url_truthy s u :
  search_url s = Some u -> truthy u = true /\ truthy s = true.
Proof.
  induction s as [|c s IH]; simpl.
  - discriminate.
  - destruct (match_url (c :: s)) as [v|] eqn:E.
    + intros H; inversion H; subst. split; [|reflexivity].
      eapply match_url_truthy, E.
    + intros H. split; [apply IH, H | reflexivity].
Qed.

(** A creation is counted as created when the command completes with an
    output that is not blank. *)
Lemma created_ok_returned r :
  created_ok (returned r)
  = match r with
    | Completed out => truthy (strip out)
    | _ => false
    end.
Proof.
  destruct r as [out|so se|e]; [|reflexivity|reflexivity]. simpl.
  destruct (search_url (strip out)) as [u|] eqn:E; [|reflexivity].
  apply search_url_truthy in E as [-> ->]. reflexivity.
Qed.

Lemma cc_create_issue_eq gh repo issue t :
  CheckAndCreate.create_issue gh repo issue t
  = (match gh t (create_cmd repo issue) with
     | Raised e => Raise e
     | r => Return (returned r)
     end,
     t ++ [EvRun (create_cmd repo issue) (gh t (create_cmd repo issue))]).
Proof.
  unfold CheckAndCreate.create_issue, bind. rewrite subprocess_run_eq.
  destruct (gh t (create_cmd repo issue)) as [out|so se|e];
    [|reflexivity|reflexivity].
  unfold returned, ret. destruct (search_url (strip out)); reflexivity.
Qed.

Lemma tally_counts url acc :
  created (tally url acc) + failed (tally url acc)
  = S (created acc + failed acc).
Proof.
  destruct url as [u|]; simpl; [destruct (truthy u); simpl|]; lia.
Qed.

Lemma tally_fold_counts rs acc :
  let rep := fold_left (fun a r => tally (returned r) a) rs acc in
  created rep + failed rep = created acc + failed acc + length rs.
Proof.
  revert acc; induction rs as [|r rs IH]; intros acc; simpl; [lia|].
  rewrite IH, tally_counts. lia.
Qed.

Lemma tally_created url acc :
  created_ok url = true ->
  created (tally url acc) = S (created acc) /\
  failed (tally url acc) = failed acc /\
  length (urls (tally url acc)) = S (length (urls acc)).
Proof.
  destruct url as [u|]; simpl; [|discriminate]. intros ->. simpl.
  rewrite length_app. simpl. repeat split; lia.
Qed.

Lemma tally_failed url acc :
  created_ok url = false ->
  created (tally url acc) = created acc /\
  failed (tally url acc) = S (failed acc) /\
  length (urls (tally url acc)) = length (urls acc).
Proof.
  destruct url as [u|]; simpl; [intros ->|]; simpl; auto.
Qed.

(** The creating loop of [check_and_create_issues.py]: the creation
    commands are handed over one record after the other; a call that raises
    ends the loop, and otherwise the report is the tally of what the
    commands returned. *)
Lemma cc_create_loop_spec gh repo final todo acc t :
  let res := CheckAndCreate.create_loop gh repo final todo acc t in
  exists rs,
    results (snd res) = results t ++ rs /\
    commands (snd res)
    = commands t ++ map (create_cmd repo) (firstn (length rs) todo) /\
    length rs <= length todo /\
    Forall (fun r => exists t' i, In i todo /\ r = gh t' (create_cmd repo i))
      rs /\
    match fst res with
    | Return rep =>
        length rs = length todo /\
        rep = fold_left (fun a r => tally (returned r) a) rs acc /\
        sleeps (snd res)
        = sleeps t
          + length (List.filter (fun i => bool_decide (Some i ≠ final)) todo)
    | Raise e =>
        exists rs', rs = rs' ++ [Raised e] /\ sleeps (snd res) <= sleeps t + length rs'
    end.
Proof.
  revert acc t; induction todo as [|i todo IH]; intros acc t; cbn zeta.
  - exists []. simpl. rewrite !app_nil_r. repeat split; auto; try lia.
  - cbn [CheckAndCreate.create_loop].
    set (r := gh t (create_cmd repo i)).
    set (t1 := t ++ [EvRun (create_cmd repo i) r]).
    assert (Ht1 : results t1 = results t ++ [r] /\
                  commands t1 = commands t ++ [create_cmd repo i] /\
                  sleeps t1 = sleeps t).
    { unfold t1. rewrite results_app, commands_app, sleeps_app. simpl.
      repeat split; lia. }
    destruct Ht1 as (R1 & C1 & S1).
    assert (Hr : exists t' j, In j (i :: todo) /\ r = gh t' (create_cmd repo j))
      by (exists t, i; split; [left|]; reflexivity).
    destruct (is_raised r) eqn:Er.
    + destruct r as [out|so se|e] eqn:Eq; try discriminate Er.
      rewrite (bind_raise _ _ _ e t1)
        by (rewrite cc_create_issue_eq; fold r t1; rewrite Eq; reflexivity).
      exists [Raised e]. cbn [fst snd length firstn map].
      rewrite R1, C1, S1. repeat split; auto; try (simpl; lia).
      exists []. split; [reflexivity | simpl; lia].
    + rewrite (bind_return _ _ _ (returned r) t1)
        by (rewrite cc_create_issue_eq; fold r t1;
            destruct r; [reflexivity | reflexivity | discriminate Er]).
      cbn [List.filter].
      destruct (bool_decide (Some i ≠ final)) eqn:Ef.
      * rewrite (bind_return _ _ _ tt (t1 ++ [EvSleep 1500])) by reflexivity.
        destruct (IH (tally (returned r) acc) (t1 ++ [EvSleep 1500]))
          as (rs & Hres & Hc & Hl & Hfa & Hm).
        exists (r :: rs). cbn zeta in *. cbn [length firstn map].
        rewrite Hres, Hc, !results_app, !commands_app, R1, C1.
        simpl. rewrite !app_nil_r, <- !app_assoc. simpl.
        repeat split; auto; try lia.
        { constructor; [exact Hr|]. eapply Forall_impl; [exact Hfa|].
          intros x (t' & j & Hj & ->). exists t', j. split; [right|]; auto. }
        destruct (fst (CheckAndCreate.create_loop gh repo final todo
                         (tally (returned r) acc) (t1 ++ [EvSleep 1500]))).
        { destruct Hm as (H1 & H2 & H3). rewrite H3, sleeps_app, S1.
          simpl. repeat split; auto; lia. }
        { destruct Hm as (rs' & -> & H3). exists (r :: rs').
          rewrite sleeps_app, S1 in H3. simpl in *. split; [reflexivity|lia]. }
      * rewrite (bind_return _ _ _ tt t1) by reflexivity.
        destruct (IH (tally (returned r) acc) t1)
          as (rs & Hres & Hc & Hl & Hfa & Hm).
        exists (r :: rs). cbn zeta in *. cbn [length firstn map].
        rewrite Hres, Hc, R1, C1.
        simpl. rewrite <- !app_assoc. simpl.
        repeat split; auto; try lia.
        { constructor; [exact Hr|]. eapply Forall_impl; [exact Hfa|].
          intros x (t' & j & Hj & ->). exists t', j. split; [right|]; auto. }
        destruct (fst (CheckAndCreate.create_loop gh repo final todo
                         (tally (returned r) acc) t1)).
        { destruct Hm as (H1 & H2 & H3). rewrite H3, S1.
          repeat split; auto; lia. }
        { destruct Hm as (rs' & -> & H3). exists (r :: rs').
          rewrite S1 in H3. simpl in *. split; [reflexivity|lia]. }
Qed.

Lemma cc_create_missing_commands gh repo missing t :
  exists k,
    (missing <> [] -> 0 < k) /\ k <= length missing /\
    commands (snd (CheckAndCreate.create_missing gh repo missing t))
    = commands t ++ map (create_cmd repo) (firstn k missing).
Proof.
  unfold CheckAndCreate.create_missing.
  destruct (cc_create_loop_spec gh repo (last missing) missing
              {| created := 0; failed := 0; urls := [] |} t)
    as (rs & _ & Hc & Hl & _ & Hm). cbn zeta in *.
  exists (length rs). split; [|split; [exact Hl | exact Hc]].
  intros Hne.
  destruct (fst (CheckAndCreate.create_loop gh repo (last missing) missing
                   {| created := 0; failed := 0; urls := [] |} t)).
  - destruct Hm as (E & _). rewrite E.
    destruct missing; [contradiction | simpl; lia].
  - destruct Hm as (rs' & -> & _). rewrite length_app. simpl. lia.
Qed.

(** When no creation call raises, the loop returns its report after one
    creation command for every record. *)
Lemma cc_create_missing_total gh repo missing t :
  (forall t' i, In i missing ->
                is_raised (gh t' (create_cmd repo i)) = false) ->
  let res := CheckAndCreate.create_missing gh repo missing t in
  exists rep rs,
    fst res = Return rep /\
    results (snd res) = results t ++ rs /\
    length rs = length missing /\
    rep = fold_left (fun a r => tally (returned r) a) rs
            {| created := 0; failed := 0; urls := [] |} /\
    commands (snd res) = commands t ++ map (create_cmd repo) missing.
Proof.
  intros Hno. cbn zeta. unfold CheckAndCreate.create_missing.
  destruct (cc_create_loop_spec gh repo (last missing) missing
              {| created := 0; failed := 0; urls := [] |} t)
    as (rs & Hres & Hc & Hl & Hfa & Hm). cbn zeta in *.
  destruct (fst (CheckAndCreate.create_loop gh repo (last missing) missing
                   {| created := 0; failed := 0; urls := [] |} t))
    as [rep|e].
  - destruct Hm as (H1 & H2 & _). exists rep, rs.
    rewrite Hc, H1, firstn_all. auto.
  - exfalso. destruct Hm as (rs' & -> & _).
    rewrite Forall_app in Hfa. destruct Hfa as [_ Hfa].
    inversion Hfa as [|? ? (t' & j & Hj & Ej) _]; subst.
    specialize (Hno t' j Hj). rewrite <- Ej in Hno. discriminate Hno.
Qed.

(** ** Claims on the creating loop *)

(** The claim C1 fails when a creation call raises something else than
    [CalledProcessError]: the parser lets a NUL character through in a
    title, [subprocess.run] refuses the command with [ValueError], nothing
    catches it, and the record that follows is never attempted. *)
Lemma nul_title_stops_batch :
  let res := CheckAndCreate.create_missing Scenario.gh_ok Scenario.repo
               [Scenario.nul_title; Scenario.second] [] in
  parse_issues_file Scenario.nul_title_blocks
  = Some [Scenario.nul_title; Scenario.second] /\
  fst res = Raise ValueError /\
  commands (snd res) = [create_cmd Scenario.repo Scenario.nul_title] /\
  ~ In (create_cmd Scenario.repo Scenario.second) (commands (snd res)).
Proof.
  cbn zeta. split; [vm_compute; reflexivity|].
  split; [vm_compute; reflexivity|].
  assert (E : commands (snd (CheckAndCreate.create_missing Scenario.gh_ok
                Scenario.repo [Scenario.nul_title; Scenario.second] []))
              = [create_cmd Scenario.repo Scenario.nul_title])
    by (vm_compute; reflexivity).
  rewrite E. split; [reflexivity|].
  intros [H | []]. vm_compute in H. discriminate H.
Qed.

(** C1, amended.  As long as no creation call raises something else than
    [CalledProcessError], the loop hands over one creation command for
    every missing record, in order, whatever the outcome of the earlier
    ones, and every record is counted as created or as failed.  With three
    records, when the second creation fails and the two others complete
    with an output, the third creation is launched and the report is
    created = 2, failed = 1.  A call that raises another exception ends
    the run at once. *)
Theorem failure_does_not_stop_batch :
  (forall gh repo missing t0,
     (forall t i, In i missing ->
                  is_raised (gh t (create_cmd repo i)) = false) ->
     let res := CheckAndCreate.create_missing gh repo missing t0 in
     exists rep,
       fst res = Return rep /\
       commands (snd res) = commands t0 ++ map (create_cmd repo) missing /\
       created rep + failed rep = length missing) /\
  (forall gh repo r1 r2 r3 t0 o1 o3 so se,
     let res := CheckAndCreate.create_missing gh repo [r1; r2; r3] t0 in
     results (snd res)
     = results t0 ++ [Completed o1; CalledProcessError so se; Completed o3] ->
     truthy (strip o1) = true -> truthy (strip o3) = true ->
     exists rep,
       fst res = Return rep /\
       commands (snd res)
       = commands t0
         ++ [create_cmd repo r1; create_cmd repo r2; create_cmd repo r3] /\
       created rep = 2 /\ failed rep = 1 /\ length (urls rep) = 2) /\
  (forall gh repo r missing t0 e,
     gh t0 (create_cmd repo r) = Raised e ->
     CheckAndCreate.create_missing gh repo (r :: missing) t0
     = (Raise e, t0 ++ [EvRun (create_cmd repo r) (Raised e)])).
Proof.
  split; [|split].
  - intros gh repo missing t0 Hno res. subst res.
    destruct (cc_create_missing_total gh repo missing t0 Hno)
      as (rep & rs & Hf & _ & Hl & Hrep & Hc). cbn zeta in *.
    exists rep. split; [exact Hf|]. split; [exact Hc|].
    rewrite Hrep, tally_fold_counts, Hl. simpl. lia.
  - intros gh repo r1 r2 r3 t0 o1 o3 so se res Hres H1 H3. subst res.
    unfold CheckAndCreate.create_missing in *.
    destruct (cc_create_loop_spec gh repo (last [r1; r2; r3]) [r1; r2; r3]
                {| created := 0; failed := 0; urls := [] |} t0)
      as (rs & Hr & Hc & _ & _ & Hm). cbn zeta in *.
    rewrite Hres in Hr. apply app_inv_head in Hr. subst rs.
    destruct (fst (CheckAndCreate.create_loop gh repo (last [r1; r2; r3])
                     [r1; r2; r3] {| created := 0; failed := 0; urls := [] |}
                     t0)) as [rep|e].
    + destruct Hm as (_ & Hrep & _). exists rep.
      split; [reflexivity|]. split; [exact Hc|].
      rewrite Hrep. cbn [fold_left].
      set (a0 := {| created := 0; failed := 0; urls := [] |}).
      assert (E1 : created_ok (returned (Completed o1)) = true)
        by (rewrite created_ok_returned; exact H1).
      assert (E3 : created_ok (returned (Completed o3)) = true)
        by (rewrite created_ok_returned; exact H3).
      destruct (tally_created _ a0 E1) as (A1 & B1 & C1).
      set (a1 := tally (returned (Completed o1)) a0) in *.
      destruct (tally_failed (returned (CalledProcessError so se)) a1 eq_refl)
        as (A2 & B2 & C2).
      set (a2 := tally (returned (CalledProcessError so se)) a1) in *.
      destruct (tally_created _ a2 E3) as (A3 & B3 & C3).
      rewrite A3, B3, C3, A2, B2, C2, A1, B1, C1. simpl. auto.
    + exfalso. destruct Hm as (rs' & E & _).
      change [Completed o1; CalledProcessError so se; Completed o3]
        with ([Completed o1; CalledProcessError so se] ++ [Completed o3]) in E.
      apply app_inj_tail in E as [_ E]. discriminate E.
  - intros gh repo r missing t0 e He.
    unfold CheckAndCreate.create_missing. cbn [CheckAndCreate.create_loop].
    apply bind_raise. rewrite cc_create_issue_eq, He. reflexivity.
Qed.

Lemma failure_does_not_stop_batch_witness :
  let res := CheckAndCreate.create_missing Scenario.gh_second_fails
               Scenario.repo
               [Scenario.retries; Scenario.metrics; Scenario.tracing] [] in
  exists rep,
    fst res = Return rep /\
    commands (snd res)
    = [create_cmd Scenario.repo Scenario.retries;
       create_cmd Scenario.repo Scenario.metrics;
       create_cmd Scenario.repo Scenario.tracing] /\
    created rep = 2 /\ failed rep = 1 /\ length (urls rep) = 2.
Proof.
  apply (proj1 (proj2 failure_does_not_stop_batch) Scenario.gh_second_fails
           Scenario.repo Scenario.retries Scenario.metrics Scenario.tracing []
           (Scenario.issue_url [])
           (Scenario.issue_url [EvRun [] (Completed []); EvRun [] (Completed [])])
           [] (py "HTTP 502: Bad Gateway")).
  - vm_compute. reflexivity.
  - vm_compute. reflexivity.
  - vm_compute. reflexivity.
Defined.

(** The claim C3 fails on the number of pauses: with the two-block
    catalogue and the index [{Add retries: 42}] the only missing record is
    also the last one, and the loop does not pause after it (nor does the
    loop of [create_issues_robust.py], whose test is [2 < 1]). *)
Lemma one_missing_record_no_pause :
  let missing :=
    snd (CheckAndCreate.reconcile [Scenario.retries; Scenario.metrics]
           (CheckAndCreate.dict_of [(py "Add retries", 42%N)])) in
  let res := CheckAndCreate.create_missing Scenario.gh_ok Scenario.repo
               missing [] in
  parse_issues_file Scenario.two_blocks
  = Some [Scenario.retries; Scenario.metrics] /\
  missing = [Scenario.metrics] /\
  length (commands (snd res)) = 1 /\
  (exists rep, fst res = Return rep /\ created rep = 1 /\ failed rep = 0) /\
  sleeps (snd res) = 0 /\ sleeps (snd res) <> 1 /\
  sleeps (snd (Robust.create_all Scenario.gh_ok Scenario.repo missing [])) = 0.
Proof.
  vm_compute. repeat split; try reflexivity.
  - eexists. repeat split; reflexivity.
  - discriminate.
Qed.

(** C3, amended. For a document whose records are #1 [Add retries] and
    #2 [Add metrics] and the index [{Add retries: 42}], reconciliation
    gives the first record as present with 42 and the second as the only
    missing one; the loop then launches exactly one creation command and
    does not pause at all, since no record follows; when the creation
    completes with an output the report is created = 1, failed = 0. *)
Theorem end_to_end_two_blocks gh repo (content : str) r1 r2 t0 :
  parse_issues_file content = Some [r1; r2] ->
  ident r1 = (1%N, py "Add retries") ->
  ident r2 = (2%N, py "Add metrics") ->
  let rec := CheckAndCreate.reconcile [r1; r2]
               (CheckAndCreate.dict_of [(py "Add retries", 42%N)]) in
  let res := CheckAndCreate.create_missing gh repo (snd rec) t0 in
  rec = ([(r1, 42%N)], [r2]) /\
  commands (snd res) = commands t0 ++ [create_cmd repo r2] /\
  sleeps (snd res) = sleeps t0 /\
  (forall out,
     gh t0 (create_cmd repo r2) = Completed out ->
     truthy (strip out) = true ->
     exists rep,
       fst res = Return rep /\
       created rep = 1 /\ failed rep = 0 /\ length (urls rep) = 1).
Proof.
  intros Hp H1 H2 rec res.
  assert (Hrec : rec = ([(r1, 42%N)], [r2])).
  { subst rec. rewrite reconcile_spec.
    cbn [omap list_omap List.filter].
    injection H1 as _ ->. injection H2 as _ ->.
    unfold CheckAndCreate.dict_of. cbn [fold_left fst snd].
    rewrite lookup_insert_eq, lookup_insert_ne by discriminate.
    rewrite lookup_empty. reflexivity. }
  split; [exact Hrec|]. subst res. rewrite Hrec. cbn [snd].
  unfold CheckAndCreate.create_missing. cbn [last].
  cbn [CheckAndCreate.create_loop].
  set (r := gh t0 (create_cmd repo r2)).
  set (t1 := t0 ++ [EvRun (create_cmd repo r2) r]).
  assert (Ht1 : commands t1 = commands t0 ++ [create_cmd repo r2] /\
                sleeps t1 = sleeps t0).
  { unfold t1. rewrite commands_app, sleeps_app. simpl. split; [auto | lia]. }
  destruct Ht1 as [C1 S1].
  destruct (is_raised r) eqn:Er.
  - destruct r as [out|so se|e] eqn:Eq; try discriminate Er.
    rewrite (bind_raise _ _ _ e t1)
      by (rewrite cc_create_issue_eq; fold r t1; rewrite Eq; reflexivity).
    cbn [fst snd]. split; [exact C1|]. split; [exact S1|].
    intros out Hout. discriminate Hout.
  - rewrite (bind_return _ _ _ (returned r) t1)
      by (rewrite cc_create_issue_eq; fold r t1;
          destruct r; [reflexivity | reflexivity | discriminate Er]).
    rewrite bool_decide_eq_false_2 by (intros H; apply H; reflexivity).
    rewrite (bind_return _ _ _ tt t1) by reflexivity.
    cbn [ret fst snd]. split; [exact C1|]. split; [exact S1|].
    intros out Hout Ht. eexists. split; [reflexivity|].
    assert (E : created_ok (returned r) = true)
      by (rewrite Hout, created_ok_returned; exact Ht).
    destruct (tally_created _ {| created := 0; failed := 0; urls := [] |} E)
      as (A & B & C). auto.
Qed.

Lemma end_to_end_two_blocks_witness :
  let rec := CheckAndCreate.reconcile [Scenario.retries; Scenario.metrics]
               (CheckAndCreate.dict_of [(py "Add retries", 42%N)]) in
  let res := CheckAndCreate.create_missing Scenario.gh_ok Scenario.repo
               (snd rec) [] in
  parse_issues_file Scenario.two_blocks
  = Some [Scenario.retries; Scenario.metrics] /\
  rec = ([(Scenario.retries, 42%N)], [Scenario.metrics]) /\
  commands (snd res) = [create_cmd Scenario.repo Scenario.metrics] /\
  sleeps (snd res) = 0 /\
  exists rep, fst res = Return rep /\ created rep = 1 /\ failed rep = 0.
Proof.
  assert (Hp : parse_issues_file Scenario.two_blocks
               = Some [Scenario.retries; Scenario.metrics])
    by (vm_compute; reflexivity).
  split; [exact Hp|].
  destruct (end_to_end_two_blocks Scenario.gh_ok Scenario.repo
              Scenario.two_blocks Scenario.retries Scenario.metrics [] Hp
              eq_refl eq_refl)
    as (H1 & H2 & H3 & H4).
  split; [exact H1|]. split; [exact H2|]. split; [exact H3|].
  destruct (H4 (Scenario.issue_url [])) as (rep & Hr & A & B & _).
  - vm_compute. reflexivity.
  - vm_compute. reflexivity.
  - exists rep. auto.
Defined.

(** ** Label fallback *)

Lemma add_labels_spec gh u ls t :
  exists t2,
    Robust.add_labels gh u ls t = (Return tt, t ++ t2) /\
    commands t2 = map (Robust.edit_cmd u) (List.filter truthy ls) /\
    sleeps t2 = 0.
Proof.
  revert t; induction ls as [|l ls IH]; intros t.
  - exists []. simpl. rewrite app_nil_r. auto.
  - cbn [Robust.add_labels List.filter]. destruct (truthy l).
    + destruct (IH (t ++ [EvRun (Robust.edit_cmd u l)
                            (gh t (Robust.edit_cmd u l))]))
        as (t2 & Hs & Hc & Hz).
      eexists (_ :: t2).
      rewrite (bind_return _ _ _ tt
                 (t ++ [EvRun (Robust.edit_cmd u l)
                          (gh t (Robust.edit_cmd u l))]))
        by reflexivity.
      rewrite Hs, <- app_assoc. split; [reflexivity|].
      simpl. rewrite Hc, Hz. auto.
    + rewrite (bind_return _ _ _ tt t) by reflexivity. apply IH.
Qed.

(** The claim C2 fails when the retry succeeds without printing the URL of
    the issue: the output is returned and none of the two labels of the
    record is attached. *)
Lemma retry_without_url_attaches_no_label :
  let res := Robust.create_issue Scenario.gh_unknown_label_no_url
               Scenario.repo Scenario.retries [] in
  labels Scenario.retries = [py "enhancement"; py "priority:high"] /\
  results (snd res)
  = [CalledProcessError []
       (py "could not add label: 'enhancement' not found");
     Completed (py "Issue created.
")] /\
  fst res = Return (Some (py "Issue created.")) /\
  commands (snd res)
  = [create_cmd Scenario.repo Scenario.retries;
     cmd_no_labels Scenario.repo Scenario.retries].
Proof.
  vm_compute. repeat split; reflexivity.
Qed.

(** C2, amended.  When the first creation fails with an error text that
    contains [label] and [not found] in any letter case, the next command
    is the creation without labels, launched once.  If it fails, nothing
    else is launched and the record has failed; if it raises, the exception
    ends the run.  If it completes and prints the URL of the issue, one
    [gh issue edit --add-label] is launched for each label of the record
    that is not the empty text, in order (so for each label when none is
    empty), and whatever these commands answer or raise the URL is returned
    and the record is counted as created.  If it completes without printing
    a URL, its output is returned and no label is attached. *)
Theorem label_fallback gh repo issue t0 so se :
  gh t0 (create_cmd repo issue) = CalledProcessError so se ->
  contains (py "label") (lower se) = true ->
  contains (py "not found") (lower se) = true ->
  let t1 := t0 ++ [EvRun (create_cmd repo issue) (CalledProcessError so se)] in
  let retry := gh t1 (cmd_no_labels repo issue) in
  let res := Robust.create_issue gh repo issue t0 in
  exists t2,
    snd res = t1 ++ EvRun (cmd_no_labels repo issue) retry :: t2 /\
    ~ In (cmd_no_labels repo issue) (commands t2) /\
    match retry with
    | CalledProcessError _ _ => fst res = Return None /\ t2 = []
    | Raised e => fst res = Raise e /\ t2 = []
    | Completed out =>
        match search_url (strip out) with
        | Some u =>
            fst res = Return (Some u) /\
            commands t2
            = map (Robust.edit_cmd u) (List.filter truthy (labels issue)) /\
            (Forall (fun l => l <> []) (labels issue) ->
             commands t2 = map (Robust.edit_cmd u) (labels issue)) /\
            forall acc, created (tally (Some u) acc) = S (created acc) /\
                        failed (tally (Some u) acc) = failed acc
        | None => fst res = Return (Some (strip out)) /\ t2 = []
        end
    end.
Proof.
  intros H1 Hl Hn t1 retry res. subst res.
  unfold Robust.create_issue.
  rewrite (bind_return _ _ _ (CalledProcessError so se) t1)
    by (rewrite subprocess_run_eq, H1; reflexivity).
  unfold Robust.label_not_found. rewrite Hl, Hn. cbn [andb].
  rewrite (bind_return _ _ _ retry
             (t1 ++ [EvRun (cmd_no_labels repo issue) retry]))
    by reflexivity.
  destruct retry as [out|so2 se2|e].
  - destruct (search_url (strip out)) as [u|] eqn:Eu.
    + destruct (add_labels_spec gh u (labels issue)
                  (t1 ++ [EvRun (cmd_no_labels repo issue) (Completed out)]))
        as (t2 & Hs & Hc & _).
      rewrite (bind_return _ _ _ tt _ Hs). cbn [ret fst snd].
      exists t2. rewrite <- app_assoc. split; [reflexivity|]. split.
      * rewrite Hc. intros Hin. apply in_map_iff in Hin as (l & E & _).
        discriminate E.
      * split; [reflexivity|]. split; [exact Hc|]. split.
        { intros Hne. rewrite Hc. f_equal. clear -Hne.
          induction Hne as [|l ls Hl _ IH]; [reflexivity|].
          cbn [List.filter]. destruct l; [contradiction|].
          cbn [truthy]. rewrite IH. reflexivity. }
        intros acc.
        apply search_url_truthy in Eu as [Hu _].
        destruct (tally_created (Some u) acc Hu) as (A & B & _). auto.
    + exists []. cbn [ret fst snd]. auto.
  - exists []. cbn [ret fst snd]. auto.
  - exists []. cbn [raise fst snd]. auto.
Qed.

Lemma label_fallback_witness :
  let res := Robust.create_issue Scenario.gh_unknown_label Scenario.repo
               Scenario.retries [] in
  let u := py "https://github.com/delfour-co/repolens/issues/2" in
  fst res = Return (Some u) /\
  commands (snd res)
  = [create_cmd Scenario.repo Scenario.retries;
     cmd_no_labels Scenario.repo Scenario.retries;
     Robust.edit_cmd u (py "enhancement");
     Robust.edit_cmd u (py "priority:high")].
Proof.
  destruct (label_fallback Scenario.gh_unknown_label Scenario.repo
              Scenario.retries [] []
              (py "could not add label: 'enhancement' Not Found")
              eq_refl eq_refl eq_refl)
    as (t2 & Hs & _ & H).
  lazymatch type of H with
  | match ?r with _ => _ end =>
      let v := eval vm_compute in r in change r with v in H
  end.
  cbv beta iota in H.
  lazymatch type of H with
  | match ?r with _ => _ end =>
      let v := eval vm_compute in r in change r with v in H
  end.
  cbv beta iota in H. destruct H as (Hf & Hc & _).
  split; [exact Hf|].
  rewrite Hs, commands_app. cbn [commands app]. rewrite Hc. reflexivity.
Defined.

(** ** Closing a range *)









(** ** A failed listing *)

Lemma reconcile_empty (l : list Issue) :
  CheckAndCreate.reconcile l ∅ = ([], l).
Proof.
  rewrite reconcile_spec. f_equal.
  - induction l as [|i l IH]; [reflexivity|]. cbn [omap list_omap].
    rewrite lookup_empty. exact IH.
  - induction l as [|i l IH]; [reflexivity|]. cbn [List.filter].
    rewrite lookup_empty, bool_decide_eq_true_2, IH by reflexivity.
    reflexivity.
Qed.

Lemma get_existing_issues_failed gh json repo t :
  listing_fails json (gh t (CheckAndCreate.list_cmd repo)) ->
  CheckAndCreate.get_existing_issues gh json repo t
  = (Return ∅, t ++ [EvRun (CheckAndCreate.list_cmd repo)
                       (gh t (CheckAndCreate.list_cmd repo))]).
Proof.
  unfold CheckAndCreate.get_existing_issues, listing_fails, bind.
  rewrite subprocess_run_eq.
  destruct (gh t (CheckAndCreate.list_cmd repo)) as [out|so se|e].
  - intros ->. reflexivity.
  - reflexivity.
  - reflexivity.
Qed.

(** What [main] launches once the listing has failed and the user has
    answered [y]: the creations of the records, from the first one on. *)
Lemma main_after_failed_listing gh json repo t argv content rs answer t0 :
  listing_fails json (gh t (CheckAndCreate.list_cmd repo)) ->
  CheckAndCreate.detect_repo gh argv t0 = (Return (Some repo), t) ->
  parse_issues_file content = Some rs ->
  lower answer = py "y" ->
  let t1 := t ++ [EvRun (CheckAndCreate.list_cmd repo)
                    (gh t (CheckAndCreate.list_cmd repo))] in
  let run := CheckAndCreate.create_missing gh repo rs t1 in
  snd (CheckAndCreate.main gh json argv (Some content) answer t0)
  = match rs with [] => t1 | _ :: _ => snd run end /\
  (forall rep, fst run = Return rep ->
     exists code,
       fst (CheckAndCreate.main gh json argv (Some content) answer t0)
       = Return code).
Proof.
  intros Hfail Hd Hp Ha t1 run. subst run. unfold CheckAndCreate.main.
  rewrite (bind_return _ _ _ _ _ Hd), Hp.
  rewrite (bind_return _ _ _ _ _ (get_existing_issues_failed _ _ _ _ Hfail)).
  rewrite reconcile_empty. cbn [snd]. fold t1.
  destruct rs as [|i l].
  - cbn [ret snd fst]. split; [reflexivity|]. eauto.
  - rewrite Ha. unfold str_eqb. rewrite bool_decide_eq_true_2 by reflexivity.
    cbn [negb]. unfold bind.
    destruct (CheckAndCreate.create_missing gh repo (i :: l) t1)
      as [[rep|e] t2]; cbn [fst snd ret].
    + split; [reflexivity|]. eauto.
    + split; [reflexivity|]. intros rep H. discriminate H.
Qed.

(** The claim C10 fails when a creation call raises: after a failed
    listing every record is missing, but the [ValueError] raised for the
    first title ends [main] before the second record is attempted. *)
Lemma failed_listing_then_nul_title_stops :
  let res := CheckAndCreate.main Scenario.gh_listing_down Scenario.no_json
               [py "check_and_create_issues.py"]
               (Some Scenario.nul_title_blocks) (py "y") [] in
  results (snd res)
  = [Completed (Scenario.repo ++ [nl]);
     CalledProcessError [] (py "HTTP 503: Service Unavailable");
     Raised ValueError] /\
  fst res = Raise ValueError /\
  commands (snd res)
  = [repo_view_cmd; CheckAndCreate.list_cmd Scenario.repo;
     create_cmd Scenario.repo Scenario.nul_title] /\
  ~ In (create_cmd Scenario.repo Scenario.second) (commands (snd res)).
Proof.
  cbn zeta.
  assert (E : CheckAndCreate.main Scenario.gh_listing_down Scenario.no_json
                [py "check_and_create_issues.py"]
                (Some Scenario.nul_title_blocks) (py "y") []
              = (Raise ValueError,
                 [EvRun repo_view_cmd (Completed (Scenario.repo ++ [nl]));
                  EvRun (CheckAndCreate.list_cmd Scenario.repo)
                    (CalledProcessError []
                       (py "HTTP 503: Service Unavailable"));
                  EvRun (create_cmd Scenario.repo Scenario.nul_title)
                    (Raised ValueError)]))
    by (vm_compute; reflexivity).
  rewrite E. cbn [fst snd results commands].
  split; [reflexivity|]. split; [reflexivity|]. split; [reflexivity|].
  intros [H | [H | [H | []]]]; vm_compute in H; discriminate H.
Qed.

(** C10, amended.  When the listing fails, by an error of the command, by
    an exception or by an output that cannot be read,
    [get_existing_issues] returns the empty index; every record is then
    missing; and once the user has answered [y], [main] creates the records
    of the catalogue in order, from the first one on, all of them as long as
    no creation call raises something else than [CalledProcessError]. *)
Theorem failed_listing_creates_everything gh json repo t :
  listing_fails json (gh t (CheckAndCreate.list_cmd repo)) ->
  CheckAndCreate.get_existing_issues gh json repo t
  = (Return ∅, t ++ [EvRun (CheckAndCreate.list_cmd repo)
                       (gh t (CheckAndCreate.list_cmd repo))]) /\
  (forall l : list Issue, CheckAndCreate.reconcile l ∅ = ([], l)) /\
  (forall argv content rs answer t0,
     CheckAndCreate.detect_repo gh argv t0 = (Return (Some repo), t) ->
     parse_issues_file content = Some rs ->
     lower answer = py "y" ->
     let res := CheckAndCreate.main gh json argv (Some content) answer t0 in
     (exists k,
        (rs <> [] -> 0 < k) /\ k <= length rs /\
        commands (snd res)
        = commands t ++ CheckAndCreate.list_cmd repo
            :: map (create_cmd repo) (firstn k rs)) /\
     ((forall t' i, In i rs ->
                    is_raised (gh t' (create_cmd repo i)) = false) ->
      commands (snd res)
      = commands t ++ CheckAndCreate.list_cmd repo
          :: map (create_cmd repo) rs /\
      exists code, fst res = Return code)).
Proof.
  intros Hfail. split; [apply get_existing_issues_failed, Hfail|].
  split; [exact reconcile_empty|].
  intros argv content rs answer t0 Hd Hp Ha res. subst res.
  destruct (main_after_failed_listing gh json repo t argv content rs answer
              t0 Hfail Hd Hp Ha) as [Hs Hcode]. cbn zeta in *.
  set (t1 := t ++ [EvRun (CheckAndCreate.list_cmd repo)
                     (gh t (CheckAndCreate.list_cmd repo))]) in *.
  assert (Ht1 : commands t1 = commands t ++ [CheckAndCreate.list_cmd repo]).
  { unfold t1. rewrite commands_app. reflexivity. }
  split.
  - rewrite Hs. destruct rs as [|i l].
    + exists 0. rewrite Ht1.
      split; [intros H; contradiction|]. split; [simpl; lia | reflexivity].
    + destruct (cc_create_missing_commands gh repo (i :: l) t1)
        as (k & Hpos & Hle & Hk).
      exists k. split; [exact Hpos|]. split; [exact Hle|].
      rewrite Hk, Ht1, <- app_assoc. reflexivity.
  - intros Hno.
    destruct (cc_create_missing_total gh repo rs t1 Hno)
      as (rep & rs' & Hf & _ & _ & _ & Hc). cbn zeta in *.
    split; [|exact (Hcode rep Hf)].
    rewrite Hs. destruct rs as [|i l].
    + rewrite Ht1. reflexivity.
    + rewrite Hc, Ht1, <- app_assoc. reflexivity.
Qed.

Lemma failed_listing_creates_everything_witness :
  let gh := Scenario.gh_down in
  let err := CalledProcessError [] (py "error connecting to api.github.com") in
  let t := [EvRun repo_view_cmd err] in
  let res := CheckAndCreate.main gh Scenario.no_json
               [py "check_and_create_issues.py"; Scenario.repo]
               (Some Scenario.two_blocks) (py "Y") [] in
  listing_fails Scenario.no_json
    (gh t (CheckAndCreate.list_cmd Scenario.repo)) /\
  commands (snd res)
  = [repo_view_cmd; CheckAndCreate.list_cmd Scenario.repo;
     create_cmd Scenario.repo Scenario.retries;
     create_cmd Scenario.repo Scenario.metrics] /\
  exists code, fst res = Return code.
Proof.
  split; [exact I|].
  refine (proj2 (proj2 (proj2 (failed_listing_creates_everything
    Scenario.gh_down Scenario.no_json Scenario.repo
    [EvRun repo_view_cmd
       (CalledProcessError [] (py "error connecting to api.github.com"))] _))
    [py "check_and_create_issues.py"; Scenario.repo]
    Scenario.two_blocks [Scenario.retries; Scenario.metrics] (py "Y") []
    _ _ _) _).
  - exact I.
  - vm_compute. reflexivity.
  - vm_compute. reflexivity.
  - vm_compute. reflexivity.
  - intros t' i [<- | [<- | []]]; vm_compute; reflexivity.
Defined.

(** * Further properties of the scripts *)

(** ** More on the parser *)

(** A document yields no record exactly when none of its lines is an issue
    header. *)
Theorem no_record_without_header (content : str) :
  parse_issues_file content = Some []
  <-> Forall (fun l => is_header l = false) (readlines content).
Proof.
  rewrite <- omap_header_nil.
  pose proof (records_of_headers (readlines content)) as Hp.
  split; intros H.
  - apply parse_Some in H as [_ H]. rewrite <- H in Hp. simpl in Hp.
    apply Permutation_nil in Hp. exact Hp.
  - apply parse_Some. split.
    + apply forallb_int_ok_not_header, omap_header_nil, H.
    + rewrite H in Hp. symmetry in Hp. apply Permutation_nil in Hp.
      destruct (pure_parse (readlines content)); [reflexivity | discriminate].
Qed.

(** The title and the three texts of every record returned have no white
    space left at either end. *)
Theorem emitted_fields_trimmed (content : str) rs r :
  parse_issues_file content = Some rs ->
  In r rs ->
  strip (title r) = title r /\
  strip (description r) = description r /\
  strip (objectives r) = objectives r /\
  strip (acceptance r) = acceptance r.
Proof.
  intros Hp Hr. apply parse_Some in Hp as [_ ->]. split.
  - unfold pure_parse in Hr. apply in_sorted in Hr.
    apply (in_map ident) in Hr. rewrite scan_idents in Hr.
    apply list_elem_of_In, list_elem_of_omap in Hr as (line & _ & Hh).
    apply header_of_spec in Hh as (ds & rest & _ & _ & _ & _ & Ht & _).
    rewrite Ht. apply strip_strip.
  - unfold pure_parse, pure_scan in Hr.
    apply in_sorted, in_map_iff in Hr as (c & <- & _). simpl.
    rewrite !strip_strip. auto.
Qed.

Lemma emitted_fields_trimmed_witness :
  parse_issues_file Scenario.two_blocks
  = Some [Scenario.retries; Scenario.metrics] /\
  strip (description Scenario.metrics) = description Scenario.metrics.
Proof.
  assert (Hp : parse_issues_file Scenario.two_blocks
               = Some [Scenario.retries; Scenario.metrics])
    by (vm_compute; reflexivity).
  split; [exact Hp|].
  refine (proj1 (proj2 (emitted_fields_trimmed _ _ Scenario.metrics Hp _))).
  right. left. reflexivity.
Defined.

(** No label of a record returned contains a backtick, a single quote or
    a comma. *)
Theorem labels_carry_no_decoration (content : str) rs r l :
  parse_issues_file content = Some rs ->
  In r rs -> In l (labels r) ->
  ~ In "`"%char l /\ ~ In "'"%char l /\ ~ In ","%char l.
Proof.
  intros Hp Hr Hl. apply parse_Some in Hp as [_ ->].
  destruct (parsed_labels_from _ _ Hr) as [E | (line & _ & _ & E)].
  { rewrite E in Hl. destruct Hl. }
  rewrite E, parse_labels_tokens in Hl.
  apply in_map_iff in Hl as (tok & <- & Htok).
  apply filter_In in Htok as [Htok _]. unfold undecorate.
  repeat split; intros H; apply filter_In in H as [H Hd].
  - vm_compute in Hd. discriminate Hd.
  - vm_compute in Hd. discriminate Hd.
  - apply in_strip in H.
    pose proof (split_no_sep ","%char
                  (strip (replace labels_marker [] line))) as Hs.
    rewrite List.Forall_forall in Hs. exact (Hs tok Htok H).
Qed.

Lemma labels_carry_no_decoration_witness :
  ~ In "`"%char (py "priority:high") /\ ~ In "'"%char (py "priority:high")
  /\ ~ In ","%char (py "priority:high").
Proof.
  apply (labels_carry_no_decoration Scenario.two_blocks
           [Scenario.retries; Scenario.metrics] Scenario.retries).
  - vm_compute. reflexivity.
  - left. reflexivity.
  - right. left. reflexivity.
Defined.

Lemma labels_body_check body :
  forallb (fun l => negb (is_header l) && negb (is_labels_line l)) body = true ->
  Forall (fun l => is_header l = false /\ is_labels_line l = false) body.
Proof.
  intros H. apply forallb_Forall_true in H.
  induction H as [|l body Hl _ IH]; constructor; [|exact IH].
  apply andb_true_iff in Hl as [H1 H2].
  apply negb_true_iff in H1, H2. auto.
Qed.

Lemma no_header_check ls :
  forallb (fun l => negb (is_header l)) ls = true ->
  Forall (fun l => is_header l = false) ls.
Proof.
  intros H. apply forallb_Forall_true in H.
  induction H as [|l body Hl _ IH]; constructor; [|exact IH].
  apply negb_true_iff in Hl. exact Hl.
Qed.

Lemma pure_last_labels ls line body :
  in_issue (pure_after ls) = true ->
  is_header line = false -> is_labels_line line = true ->
  Forall (fun l => is_header l = false /\ is_labels_line l = false) body ->
  exists c,
    current_issue (pure_after (ls ++ line :: body)) = Some c /\
    labels c = parse_labels line.
Proof.
  intros Hi Hh Hl Hbody.
  destruct (after_consistent ls) as [_ H2]. destruct (H2 Hi) as [c0 Ec].
  assert (H0 : option_map labels (current_issue (pure_after (ls ++ [line])))
               = Some (parse_labels line)).
  { rewrite after_snoc. unfold pure_step, is_header, header_of in *.
    destruct (match_header (strip line)) as [[g1 g2]|]; [discriminate|].
    rewrite Hi. unfold is_labels_line in Hl. cbn [negb]. rewrite Hl.
    unfold with_current. cbn [current_issue]. rewrite Ec. reflexivity. }
  replace (ls ++ line :: body) with ((ls ++ [line]) ++ body)
    by (rewrite <- app_assoc; reflexivity).
  unfold pure_after in *. rewrite loop_app.
  revert H0. generalize (pure_loop init (ls ++ [line])).
  induction Hbody as [|l body [Hlh Hll] _ IH]; intros st H0.
  - simpl. destruct (current_issue st) as [c|]; [|discriminate].
    exists c. inversion H0. auto.
  - rewrite loop_cons. apply IH. rewrite step_keeps_labels; assumption.
Qed.

(** Inside a block the labels are those of the last Labels line read:
    the lines that follow it, as long as none is a header or another Labels
    line, leave them as they are. *)
Theorem last_labels_line_wins ls st line body :
  after ls = Some st ->
  in_issue st = true ->
  is_header line = false -> is_labels_line line = true ->
  Forall (fun l => is_header l = false /\ is_labels_line l = false) body ->
  exists st' c,
    after (ls ++ line :: body) = Some st' /\
    current_issue st' = Some c /\
    labels c = parse_labels line.
Proof.
  intros Ha Hi Hh Hl Hbody. apply after_Some in Ha as [Hok ->].
  destruct (pure_last_labels ls line body Hi Hh Hl Hbody) as (c & Hc & Hlab).
  exists (pure_after (ls ++ line :: body)), c.
  split; [|auto]. rewrite after_pure, forallb_app. cbn [forallb].
  rewrite Hok, (int_ok_not_header _ Hh), forallb_int_ok_not_header;
    [reflexivity|].
  eapply Forall_impl; [exact Hbody|]. intros x [Hx _]. exact Hx.
Qed.

Lemma last_labels_line_wins_witness :
  exists st' c,
    after ([py "### Issue #4: T"]
           ++ py "**Labels:** `a`, b"
              :: [py "**Description:**"; py "some text"]) = Some st' /\
    current_issue st' = Some c /\
    labels c = parse_labels (py "**Labels:** `a`, b").
Proof.
  eapply (last_labels_line_wins [py "### Issue #4: T"]).
  - vm_compute. reflexivity.
  - reflexivity.
  - vm_compute. reflexivity.
  - vm_compute. reflexivity.
  - apply labels_body_check. vm_compute. reflexivity.
Defined.

Lemma forallb_int_ok_content ls :
  Forall (fun l => is_content l = true) ls -> forallb int_ok ls = true.
Proof.
  induction 1 as [|l ls Hl _ IH]; [reflexivity|].
  cbn [forallb]. rewrite (int_ok_content _ Hl), IH. reflexivity.
Qed.

Lemma pure_text_before_marker pre h body rest :
  is_header h = true ->
  Forall (fun l => is_content l = true) body ->
  pure_scan (pre ++ h :: body ++ rest) = pure_scan (pre ++ h :: rest).
Proof.
  intros Hh Hbody. unfold pure_scan. f_equal. f_equal.
  rewrite !loop_app, !loop_cons, loop_app. f_equal.
  unfold is_header in Hh.
  destruct (header_of h) as [[n t]|] eqn:E; [|discriminate].
  rewrite (step_header _ _ _ _ E).
  generalize (flush (pure_loop init pre)). intros p.
  induction Hbody as [|l body Hl _ IH]; [reflexivity|].
  rewrite loop_cons, step_content_no_section by auto. exact IH.
Qed.

(** The text between an issue header and the first Labels line or section
    marker of its block is discarded: the document gives the same records
    without it. *)
Theorem text_before_first_marker_dropped pre h body rest :
  is_header h = true ->
  Forall (fun l => is_content l = true) body ->
  scan (pre ++ h :: body ++ rest) = scan (pre ++ h :: rest).
Proof.
  intros Hh Hbody. rewrite !scan_pure.
  rewrite (pure_text_before_marker _ _ _ _ Hh Hbody).
  rewrite !forallb_app. cbn [forallb]. rewrite forallb_app.
  rewrite (forallb_int_ok_content _ Hbody). reflexivity.
Qed.

Lemma text_before_first_marker_dropped_witness :
  scan ([py "intro"] ++ py "### Issue #1: T"
          :: [py "lost text"; py ""] ++ [py "**Description:**"; py "kept"])
  = scan ([py "intro"] ++ py "### Issue #1: T"
            :: [py "**Description:**"; py "kept"]).
Proof.
  apply text_before_first_marker_dropped; [vm_compute; reflexivity|].
  apply forallb_Forall_true. vm_compute. reflexivity.
Defined.

Lemma pure_commentary junk rest :
  Forall (fun l => is_header l = false) junk ->
  pure_scan (junk ++ rest) = pure_scan rest /\
  (forall pre term,
     is_terminator term = true ->
     pure_scan (pre ++ term :: junk ++ rest) = pure_scan (pre ++ term :: rest)).
Proof.
  intros Hj. split.
  - unfold pure_scan. rewrite loop_app, (loop_outside init) by auto.
    reflexivity.
  - intros pre term Ht. unfold pure_scan.
    rewrite !loop_app, !loop_cons, loop_app.
    rewrite (loop_outside (pure_step _ term)); [reflexivity| |exact Hj].
    apply step_terminator_closes, Ht.
Qed.

(** What stands before the first header of a document, and what stands
    between a terminator and the next header, is ignored. *)
Theorem commentary_between_blocks_ignored junk rest :
  Forall (fun l => is_header l = false) junk ->
  scan (junk ++ rest) = scan rest /\
  (forall pre term,
     is_terminator term = true ->
     scan (pre ++ term :: junk ++ rest) = scan (pre ++ term :: rest)).
Proof.
  intros Hj. destruct (pure_commentary junk rest Hj) as [H1 H2].
  pose proof (forallb_int_ok_not_header _ Hj) as Hok. split.
  - rewrite !scan_pure, H1, forallb_app, Hok. reflexivity.
  - intros pre term Ht. rewrite !scan_pure, (H2 pre term Ht).
    rewrite !forallb_app. cbn [forallb]. rewrite forallb_app, Hok.
    reflexivity.
Qed.

Lemma commentary_between_blocks_ignored_witness :
  scan ([py "# Title"; py "---"; py "**Description:**"]
        ++ [py "### Issue #1: T"])
  = scan [py "### Issue #1: T"].
Proof.
  apply commentary_between_blocks_ignored.
  apply no_header_check. vm_compute. reflexivity.
Defined.

(** The final sort loses and repeats nothing, and the records that bear
    the same number stay in the order of the document. *)
Theorem equal_numbers_keep_document_order (content : str) rs :
  parse_issues_file content = Some rs ->
  exists recs,
    scan (readlines content) = Some recs /\
    rs ≡ₚ recs /\
    forall k,
      List.filter (fun r => (number r =? k)%N) rs
      = List.filter (fun r => (number r =? k)%N) recs.
Proof.
  intros Hp. apply parse_Some in Hp as [Hok ->].
  exists (pure_scan (readlines content)). rewrite scan_pure, Hok.
  split; [reflexivity|]. unfold pure_parse. split; [apply sorted_perm|].
  intros k. induction (pure_scan (readlines content)) as [|x l IH];
    [reflexivity|].
  cbn [sorted]. rewrite filter_insert_by. cbn [List.filter]. rewrite IH.
  reflexivity.
Qed.

Lemma equal_numbers_keep_document_order_witness :
  exists recs,
    scan (readlines (py "### Issue #2: B
### Issue #1: A
### Issue #2: C
")) = Some recs /\
    [new_issue 1 (py "A"); new_issue 2 (py "B"); new_issue 2 (py "C")]
    ≡ₚ recs /\
    forall k,
      List.filter (fun r => (number r =? k)%N)
        [new_issue 1 (py "A"); new_issue 2 (py "B"); new_issue 2 (py "C")]
      = List.filter (fun r => (number r =? k)%N) recs.
Proof.
  apply (equal_numbers_keep_document_order (py "### Issue #2: B
### Issue #1: A
### Issue #2: C
")).
  vm_compute. reflexivity.
Defined.

(** ** More on the reconciliation *)

(** Every record is either present or missing, never both and never
    neither: the two lists together are the records. *)
Theorem reconcile_partitions (l : list Issue) (existing : gmap (list ascii) N) :
  let rec := CheckAndCreate.reconcile l existing in
  map fst (fst rec) ++ snd rec ≡ₚ l /\
  length (fst rec) + length (snd rec) = length l.
Proof.
  cbn zeta. rewrite reconcile_spec. cbn [fst snd].
  induction l as [|i l [IH1 IH2]]; [split; reflexivity|].
  cbn [omap list_omap List.filter].
  destruct (existing !! title i) as [n|] eqn:E; cbn [fmap option_fmap option_map].
  - rewrite bool_decide_eq_false_2 by discriminate. simpl.
    split; [constructor; exact IH1 | lia].
  - rewrite bool_decide_eq_true_2 by reflexivity. simpl. split; [|lia].
    rewrite <- Permutation_middle. constructor. exact IH1.
Qed.

(** Reconciling the missing records again with the same index changes
    nothing: all of them are still missing. *)
Theorem reconcile_idempotent (l : list Issue) (existing : gmap (list ascii) N) :
  let missing := snd (CheckAndCreate.reconcile l existing) in
  CheckAndCreate.reconcile missing existing = ([], missing).
Proof.
  cbn zeta. rewrite !reconcile_spec. cbn [snd].
  induction l as [|i l IH]; [reflexivity|]. cbn [List.filter].
  case_bool_decide as E; [|exact IH].
  cbn [omap list_omap List.filter]. rewrite E.
  rewrite bool_decide_eq_true_2 by reflexivity.
  cbn [fmap option_fmap option_map].
  injection IH as IH1 IH2. rewrite IH1, IH2. reflexivity.
Qed.

Lemma dict_of_snoc (entries : list (str * N)) t n :
  CheckAndCreate.dict_of (entries ++ [(t, n)])
  = <[t := n]> (CheckAndCreate.dict_of entries).
Proof. unfold CheckAndCreate.dict_of. rewrite fold_left_app. reflexivity. Qed.

(** When the listing gives several issues with one title, the index keeps
    the number of the last of them; a title that is not listed has no
    entry. *)
Theorem index_keeps_last_listed (entries : list (str * N)) t :
  CheckAndCreate.dict_of entries !! t
  = snd <$> List.find (fun e => bool_decide (fst e = t)) (rev entries).
Proof.
  induction entries as [|[k v] entries IH] using rev_ind.
  - apply lookup_empty.
  - rewrite dict_of_snoc, rev_app_distr. cbn [rev app List.find fst].
    case_bool_decide as E.
    + subst k. rewrite lookup_insert_eq. reflexivity.
    + rewrite lookup_insert_ne by exact E. exact IH.
Qed.

(** ** The creation command *)

(** The body of an issue is empty exactly when its three texts are. *)
Theorem body_empty_iff (issue : Issue) :
  body_of issue = []
  <-> description issue = [] /\ objectives issue = [] /\ acceptance issue = [].
Proof.
  unfold body_of.
  destruct (description issue) as [|a d], (objectives issue) as [|b o],
    (acceptance issue) as [|c e]; cbn [truthy app join];
    split; try (intros (H1 & H2 & H3)); try discriminate; auto.
Qed.

(** The command never carries an empty label: every argument added after
    the body is [--label] or a non-empty label of the record, each non-empty
    label is passed, with one [--label] for each. *)
Theorem labels_passed_are_non_empty (repo : str) (issue : Issue) :
  create_cmd repo issue
  = cmd_no_labels repo issue ++ label_args (labels issue) /\
  Forall (fun a => a <> []) (label_args (labels issue)) /\
  (forall l, In l (labels issue) -> l <> [] ->
             In l (label_args (labels issue))) /\
  length (label_args (labels issue))
  = 2 * length (List.filter truthy (labels issue)).
Proof.
  split; [reflexivity|]. generalize (labels issue). intros ls.
  unfold label_args. split; [|split].
  - induction ls as [|l ls IH]; cbn [flat_map]; [constructor|].
    destruct l as [|c l]; cbn [truthy app]; [exact IH|].
    repeat constructor; [discriminate | discriminate | exact IH].
  - intros l Hin Hne. apply in_flat_map. exists l. split; [exact Hin|].
    destruct l; [contradiction|]. right. left. reflexivity.
  - induction ls as [|l ls IH]; [reflexivity|]. cbn [flat_map List.filter].
    rewrite length_app, IH. destruct (truthy l); simpl; lia.
Qed.

(** ** The URL of the created issue *)

Lemma match_url_shape s u :
  match_url s = Some u ->
  exists owner name ds post,
    s = u ++ post /\
    u = py "https://github.com/" ++ owner ++ py "/" ++ name
        ++ py "/issues/" ++ ds /\
    owner <> [] /\ ~ In "/"%char owner /\
    name <> [] /\ ~ In "/"%char name /\
    ds <> [] /\ forallb isdigit ds = true /\
    match post with [] => True | c :: _ => isdigit c = false end.
Proof.
  unfold match_url. intros H.
  destruct (after_prefix (py "https://github.com/") s) as [r1|] eqn:E1;
    [|discriminate].
  apply after_prefix_Some in E1.
  destruct (span _ r1) as [owner r2] eqn:E2.
  apply span_spec in E2 as (-> & Ho & _).
  destruct owner as [|o owner]; [discriminate|]. cbn [truthy] in H.
  destruct (after_prefix (py "/") r2) as [r3|] eqn:E3; [|discriminate].
  apply after_prefix_Some in E3. subst r2.
  destruct (span _ r3) as [name r4] eqn:E4.
  apply span_spec in E4 as (-> & Hn & _).
  destruct name as [|n name]; [discriminate|]. cbn [truthy] in H.
  destruct (after_prefix (py "/issues/") r4) as [r5|] eqn:E5; [|discriminate].
  apply after_prefix_Some in E5. subst r4.
  destruct (span isdigit r5) as [ds post] eqn:E6.
  apply span_spec in E6 as (-> & Hd & Hp).
  destruct ds as [|d ds]; [discriminate|]. cbn [truthy] in H.
  inversion H; subst u; clear H.
  assert (Hns : forall w, forallb
            (fun c : ascii => negb (bool_decide (c = "/"%char))) w = true ->
            ~ In "/"%char w).
  { intros w Hw Hin. rewrite forallb_forall in Hw.
    specialize (Hw _ Hin). rewrite bool_decide_eq_true_2 in Hw by reflexivity.
    discriminate Hw. }
  exists (o :: owner), (n :: name), (d :: ds), post. subst s.
  repeat split; auto; try discriminate.
  simpl. repeat (rewrite <- app_assoc; simpl). reflexivity.
Qed.

(** The value extracted from the output of [gh issue create] is a piece of
    that output of the form [https://github.com/OWNER/NAME/issues/DIGITS],
    with the whole run of digits. *)
Theorem extracted_url_shape s u :
  search_url s = Some u ->
  exists pre post owner name ds,
    s = pre ++ u ++ post /\
    u = py "https://github.com/" ++ owner ++ py "/" ++ name
        ++ py "/issues/" ++ ds /\
    owner <> [] /\ ~ In "/"%char owner /\
    name <> [] /\ ~ In "/"%char name /\
    ds <> [] /\ forallb isdigit ds = true /\
    match post with [] => True | c :: _ => isdigit c = false end.
Proof.
  induction s as [|c s IH]; cbn [search_url].
  - destruct (match_url []) eqn:E; [|discriminate].
    vm_compute in E. discriminate E.
  - destruct (match_url (c :: s)) as [v|] eqn:E.
    + intros H; inversion H; subst v.
      apply match_url_shape in E
        as (owner & name & ds & post & Es & Eu & H1 & H2 & H3 & H4 & H5 & H6 & H7).
      exists [], post, owner, name, ds. repeat split; auto.
    + intros H. destruct (IH H)
        as (pre & post & owner & name & ds & Es & Hrest).
      exists (c :: pre), post, owner, name, ds. rewrite Es.
      split; [reflexivity | exact Hrest].
Qed.

Lemma extracted_url_shape_witness :
  exists pre post owner name ds,
    py "Creating issue
https://github.com/delfour-co/repolens/issues/12
"
    = pre ++ py "https://github.com/delfour-co/repolens/issues/12" ++ post /\
    py "https://github.com/delfour-co/repolens/issues/12"
    = py "https://github.com/" ++ owner ++ py "/" ++ name
      ++ py "/issues/" ++ ds /\
    owner <> [] /\ ~ In "/"%char owner /\
    name <> [] /\ ~ In "/"%char name /\
    ds <> [] /\ forallb isdigit ds = true /\
    match post with [] => True | c :: _ => isdigit c = false end.
Proof.
  apply extracted_url_shape. reflexivity.
Defined.
